(** * TorDeck automation rule engine: a shallow embedding of
    [src/hooks/useAutomations.ts] and the properties of its rule matching,
    action execution, rule store and run scheduling.

    Layout: [JS] models the parts of the JavaScript runtime the engine leans
    on (strings, numbers, [Number(...)], [String(...)]); the sections after
    it follow the source file top to bottom; the theorems come last. *)

From stdpp Require Import base numbers list strings gmap.
From Stdlib Require Import QArith Qround Qabs DecimalString.

Local Open Scope string_scope.
Local Open Scope list_scope.
Local Open Scope Z_scope.

(* ===================================================================== *)
(** * The JavaScript runtime used by the engine *)
(* ===================================================================== *)

Module JS.

(** ** Strings

    A JavaScript string is a sequence of UTF-16 code units.  The embedding
    uses Rocq's [string], each character read as the code unit of the same
    number (U+0000 to U+00FF). *)

Definition code (c : Ascii.ascii) : Z := Z.of_N (Ascii.N_of_ascii c).

Definition chars (s : string) : list Ascii.ascii := String.list_ascii_of_string s.
Definition of_chars (l : list Ascii.ascii) : string := String.string_of_list_ascii l.

(** WhiteSpace and LineTerminator code units below U+0100: TAB, LF, VT, FF,
    CR, SP and NBSP. *)
Definition is_whitespace (c : Ascii.ascii) : bool :=
  let n := code c in
  ((9 <=? n) && (n <=? 13)) || (n =? 32) || (n =? 160).

Fixpoint trim_start (l : list Ascii.ascii) : list Ascii.ascii :=
  match l with
  | c :: r => if is_whitespace c then trim_start r else l
  | [] => []
  end.

(** [String.prototype.trim]. *)
Definition trim (s : string) : string :=
  of_chars (rev (trim_start (rev (trim_start (chars s))))).

Definition lower_char (c : Ascii.ascii) : Ascii.ascii :=
  let n := code c in
  if ((65 <=? n) && (n <=? 90))
     || ((192 <=? n) && (n <=? 222) && negb (n =? 215))
  then Ascii.ascii_of_N (Z.to_N (n + 32))
  else c.

(** [String.prototype.toLowerCase]. *)
Definition toLowerCase (s : string) : string :=
  of_chars (map lower_char (chars s)).

Fixpoint starts_with (p l : list Ascii.ascii) : bool :=
  match p, l with
  | [], _ => true
  | _ :: _, [] => false
  | a :: p', b :: l' => Ascii.eqb a b && starts_with p' l'
  end.

Fixpoint includes_chars (l p : list Ascii.ascii) : bool :=
  starts_with p l ||
  match l with
  | [] => false
  | _ :: r => includes_chars r p
  end.

(** [String.prototype.includes]. *)
Definition includes (s search : string) : bool :=
  includes_chars (chars s) (chars search).

(** Decimal digits of a non-negative integer. *)
Definition digits_of_Z (n : Z) : string :=
  NilZero.string_of_uint (N.to_uint (Z.to_N n)).

(** ** Numbers

    A JavaScript number is an IEEE 754 binary64 value.  [Finite q] carries the
    exact rational value of a finite double; the two zeros are one value
    here (the engine never divides by a number it computed). *)

Inductive number : Type :=
  | NaN
  | Infinity (negative : bool)
  | Finite (q : Q).

Definition isFinite (n : number) : bool :=
  match n with
  | Finite _ => true
  | _ => false
  end.

Definition Qlt_bool (a b : Q) : bool := negb (Qle_bool b a).

(** [x === y] on numbers. *)
Definition num_eqb (a b : number) : bool :=
  match a, b with
  | Finite p, Finite q => Qeq_bool p q
  | Infinity s, Infinity t => Bool.eqb s t
  | _, _ => false
  end.

(** [x < y] on numbers. *)
Definition num_ltb (a b : number) : bool :=
  match a, b with
  | NaN, _ | _, NaN => false
  | Finite p, Finite q => Qlt_bool p q
  | Infinity true, Infinity true => false
  | Infinity true, _ => true
  | _, Infinity true => false
  | Infinity false, _ => false
  | Finite _, Infinity false => true
  end.

(** [x <= y] on numbers. *)
Definition num_leb (a b : number) : bool := num_ltb a b || num_eqb a b.

Definition pow2 (e : Z) : Q := Qpower 2 e.
Definition pow10 (e : Z) : Q := Qpower 10 e.

(** Floor of the binary logarithm of a positive rational. *)
Definition floor_log2 (q : Q) : Z :=
  let k := Z.log2 (Qnum q) - Z.log2 (Zpos (Qden q)) in
  if Qle_bool (pow2 k) q then k else k - 1.

(** Floor of the decimal logarithm of a positive rational. *)
Definition floor_log10 (q : Q) : Z :=
  let k := (floor_log2 q * 30103) / 100000 in
  if Qle_bool (pow10 (k + 1)) q then k + 1
  else if Qle_bool (pow10 k) q then k
  else k - 1.

Definition round_half_even (q : Q) : Z :=
  let f := Qfloor q in
  match Qcompare (q - inject_Z f)%Q (1 # 2)%Q with
  | Lt => f
  | Gt => f + 1
  | Eq => if Z.even f then f else f + 1
  end.

(** Round a rational to the nearest binary64 value, ties to even: 53
    significant bits, exponents from -1022 (subnormals below it) to 1023,
    overflow to an infinity. *)
Definition round64 (q : Q) : number :=
  if Qeq_bool q 0 then Finite 0
  else
    let a := Qabs q in
    let e := Z.max (floor_log2 a) (-1022) - 52 in
    let m := round_half_even (a / pow2 e)%Q in
    let v := (inject_Z m * pow2 e)%Q in
    if Qle_bool (pow2 1024) v then Infinity (Qlt_bool q 0)
    else Finite (Qred (if Qlt_bool q 0 then (- v)%Q else v)).

(** [a - b]. *)
Definition num_sub (a b : number) : number :=
  match a, b with
  | NaN, _ | _, NaN => NaN
  | Infinity s, Infinity t => if Bool.eqb s t then NaN else Infinity s
  | Infinity s, Finite _ => Infinity s
  | Finite _, Infinity t => Infinity (negb t)
  | Finite p, Finite q => round64 (p - q)%Q
  end.

(** [a / d] for a positive integer constant [d]. *)
Definition num_div_pos (a : number) (d : positive) : number :=
  match a with
  | Finite p => round64 (p / inject_Z (Zpos d))%Q
  | _ => a
  end.

(** [Math.floor]. *)
Definition Math_floor (a : number) : number :=
  match a with
  | Finite p => Finite (inject_Z (Qfloor p))
  | _ => a
  end.

(** ** [Number(string)]: the StringNumericLiteral grammar *)

Definition digit_val (base : Z) (c : Ascii.ascii) : option Z :=
  let n := code c in
  let v := if (48 <=? n) && (n <=? 57) then n - 48
           else if (97 <=? n) && (n <=? 102) then n - 87
           else if (65 <=? n) && (n <=? 70) then n - 55
           else base in
  if v <? base then Some v else None.

(** The longest prefix of decimal digits and what follows it. *)
Fixpoint span_digits (l : list Ascii.ascii) : list Z * list Ascii.ascii :=
  match l with
  | c :: r =>
      match digit_val 10 c with
      | Some d => let '(ds, rest) := span_digits r in (d :: ds, rest)
      | None => ([], l)
      end
  | [] => ([], [])
  end.

Definition digits_value (base : Z) (ds : list Z) : Z :=
  fold_left (fun acc d => base * acc + d) ds 0.

(** A non-empty run of digits of the given base, up to the end. *)
Definition all_digits (base : Z) (l : list Ascii.ascii) : option Z :=
  match l with
  | [] => None
  | _ => digits_value base <$> mapM (digit_val base) l
  end.

(** ExponentPart, up to the end of the literal; no exponent counts as 0. *)
Definition parse_exponent (l : list Ascii.ascii) : option Z :=
  match l with
  | [] => Some 0
  | c :: r =>
      if (code c =? 101) || (code c =? 69) then
        match r with
        | s :: r' =>
            if code s =? 43 then all_digits 10 r'
            else if code s =? 45 then Z.opp <$> all_digits 10 r'
            else all_digits 10 r
        | [] => None
        end
      else None
  end.

(** The mathematical value of a literal. *)
Inductive literal_value : Type :=
  | LitInfinity
  | LitRational (q : Q).

(** StrUnsignedDecimalLiteral. *)
Definition parse_unsigned_decimal (l : list Ascii.ascii) : option literal_value :=
  if decide (l = chars "Infinity") then Some LitInfinity
  else
    let '(ip, r1) := span_digits l in
    match r1 with
    | c :: r2 =>
        if code c =? 46 then
          let '(fp, r3) := span_digits r2 in
          match ip, fp with
          | [], [] => None
          | _, _ =>
              e ← parse_exponent r3;
              Some (LitRational
                      ((inject_Z (digits_value 10 ip)
                        + inject_Z (digits_value 10 fp)
                          * pow10 (- Z.of_nat (length fp)))
                       * pow10 e)%Q)
          end
        else
          match ip with
          | [] => None
          | _ =>
              e ← parse_exponent r1;
              Some (LitRational (inject_Z (digits_value 10 ip) * pow10 e)%Q)
          end
    | [] =>
        match ip with
        | [] => None
        | _ => Some (LitRational (inject_Z (digits_value 10 ip)))
        end
    end.

(** NonDecimalIntegerLiteral: 0x, 0o and 0b literals, unsigned. *)
Definition parse_non_decimal (l : list Ascii.ascii) : option Z :=
  match l with
  | z :: p :: r =>
      if code z =? 48 then
        if (code p =? 120) || (code p =? 88) then all_digits 16 r
        else if (code p =? 111) || (code p =? 79) then all_digits 8 r
        else if (code p =? 98) || (code p =? 66) then all_digits 2 r
        else None
      else None
  | _ => None
  end.

Definition number_of_literal (negative : bool) (v : literal_value) : number :=
  match v with
  | LitInfinity => Infinity negative
  | LitRational q => round64 (if negative then (- q)%Q else q)
  end.

(** [Number(s)] for a string [s]. *)
Definition Number_of_string (s : string) : number :=
  match chars (trim s) with
  | [] => Finite 0
  | (c :: r) as l =>
      match parse_non_decimal l with
      | Some n => round64 (inject_Z n)
      | None =>
          let signed :=
            if code c =? 43 then number_of_literal false <$> parse_unsigned_decimal r
            else if code c =? 45 then number_of_literal true <$> parse_unsigned_decimal r
            else number_of_literal false <$> parse_unsigned_decimal l in
          default NaN signed
      end
  end.

(** ** [String(number)]: Number::toString in radix 10 *)

(** The candidates with [k] significant digits next to a positive [q]: pairs
    [(s, e)] standing for [s * 10^e], nearest first. *)
Definition digit_candidates (q : Q) (k : Z) : list (Z * Z) :=
  let e := floor_log10 q + 1 - k in
  let lo := Qfloor (q / pow10 e)%Q in
  let dlo := (q - inject_Z lo * pow10 e)%Q in
  let dhi := (inject_Z (lo + 1) * pow10 e - q)%Q in
  if Qle_bool dlo dhi then [(lo, e); (lo + 1, e)] else [(lo + 1, e); (lo, e)].

Definition round_trips (q : Q) (c : Z * Z) : bool :=
  num_eqb (round64 (inject_Z c.1 * pow10 c.2)%Q) (Finite q).

(** The shortest decimal significand that reads back as [q], as [(s, e)]. *)
Definition shortest_digits (q : Q) : Z * Z :=
  let all := flat_map (digit_candidates q) [1;2;3;4;5;6;7;8;9;10;11;12;13;14;15;16;17] in
  default (Qfloor (q / pow10 (floor_log10 q - 16))%Q, floor_log10 q - 16)
          (List.find (round_trips q) all).

(** Drop the trailing zeros of a significand. *)
Fixpoint strip_zeros (fuel : nat) (s e : Z) : Z * Z :=
  match fuel with
  | O => (s, e)
  | S f => if (s mod 10 =? 0) && negb (s =? 0) then strip_zeros f (s / 10) (e + 1)
           else (s, e)
  end.

Definition zeros (n : Z) : string := of_chars (replicate (Z.to_nat n) (Ascii.ascii_of_nat 48)).

Definition string_of_positive_finite (q : Q) : string :=
  let '(s0, e0) := shortest_digits q in
  let '(s, e) := strip_zeros 400 s0 e0 in
  let ds := digits_of_Z s in
  let k := Z.of_nat (String.length ds) in
  let n := k + e in
  if (k <=? n) && (n <=? 21) then ds +:+ zeros (n - k)
  else if (0 <? n) && (n <=? 21) then
    String.substring 0 (Z.to_nat n) ds +:+ "." +:+
    String.substring (Z.to_nat n) (Z.to_nat (k - n)) ds
  else if (-6 <? n) && (n <=? 0) then "0." +:+ zeros (- n) +:+ ds
  else
    let ex := (if n - 1 <? 0 then "-" else "+") +:+ digits_of_Z (Z.abs (n - 1)) in
    if k =? 1 then ds +:+ "e" +:+ ex
    else String.substring 0 1 ds +:+ "." +:+
         String.substring 1 (Z.to_nat (k - 1)) ds +:+ "e" +:+ ex.

(** [String(n)] for a number [n]. *)
Definition String_of_number (n : number) : string :=
  match n with
  | NaN => "NaN"
  | Infinity false => "Infinity"
  | Infinity true => "-Infinity"
  | Finite q =>
      if Qeq_bool q 0 then "0"
      else if Qlt_bool q 0 then "-" +:+ string_of_positive_finite (- q)%Q
      else string_of_positive_finite q
  end.

(** ** Values of type [number | string] *)

Inductive jsval : Type :=
  | VNum (n : number)
  | VStr (s : string).

Definition is_number (v : jsval) : bool :=
  match v with
  | VNum _ => true
  | VStr _ => false
  end.

(** [Number(v)]. *)
Definition ToNumber (v : jsval) : number :=
  match v with
  | VNum n => n
  | VStr s => Number_of_string s
  end.

(** [String(v)]. *)
Definition ToString (v : jsval) : string :=
  match v with
  | VNum n => String_of_number n
  | VStr s => s
  end.

(** [a === b]: values of different types are never equal. *)
Definition strict_eqb (a b : jsval) : bool :=
  match a, b with
  | VNum x, VNum y => num_eqb x y
  | VStr s, VStr t => String.eqb s t
  | _, _ => false
  end.

(** Truthiness of a number: 0 and NaN are falsy. *)
Definition truthy_number (n : number) : bool :=
  match n with
  | NaN => false
  | Infinity _ => true
  | Finite q => negb (Qeq_bool q 0)
  end.

End JS.

Import JS.

(* ===================================================================== *)
(** * Types ([@/types/torbox] and the head of [useAutomations.ts]) *)
(* ===================================================================== *)

Inductive TorBoxRuleConditionField : Type :=
  | f_progress
  | f_eta
  | f_current_download_speed
  | f_average_download_speed
  | f_download_stalled_time
  | f_upload_stalled_time
  | f_seeding_ratio
  | f_peers
  | f_age
  | f_tracker
  | f_availability
  | f_status
  | f_download_type
  | f_name_contains
  | f_size.

Inductive TorBoxRuleOperator : Type :=
  | equals
  | not_equals
  | greater_than
  | less_than
  | greater_than_or_equal
  | less_than_or_equal
  | contains.

Inductive TorBoxRuleAction : Type :=
  | delete_download
  | pause_download
  | resume_download
  | reannounce_torrent
  | request_download_link
  | create_stream
  | notify_user.

Inductive TorBoxRuleScope : Type :=
  | scope_all
  | scope_torrent
  | scope_usenet
  | scope_web.

Inductive AutomationSource : Type :=
  | torrent
  | usenet
  | web.

#[global] Instance TorBoxRuleAction_eq_dec : EqDecision TorBoxRuleAction.
Proof. solve_decision. Defined.

#[global] Instance TorBoxRuleScope_eq_dec : EqDecision TorBoxRuleScope.
Proof. solve_decision. Defined.

#[global] Instance AutomationSource_eq_dec : EqDecision AutomationSource.
Proof. solve_decision. Defined.

(** The string a source is at run time ([download_type] compares it). *)
Definition source_string (s : AutomationSource) : string :=
  match s with
  | torrent => "torrent"
  | usenet => "usenet"
  | web => "web"
  end.

(** [target.source !== rule.scope]: a source and a scope are the same string
    for the three download kinds, and never for ['all']. *)
Definition source_is_scope (s : AutomationSource) (sc : TorBoxRuleScope) : bool :=
  match s, sc with
  | torrent, scope_torrent | usenet, scope_usenet | web, scope_web => true
  | _, _ => false
  end.

Record TorBoxRuleCondition : Type := {
  field : TorBoxRuleConditionField;
  operator : TorBoxRuleOperator;
  value : string;
}.

(** Timestamps: an ISO string the engine wrote with [new Date().toISOString()]
    is kept as its epoch milliseconds; one that came from the remote API is
    kept as the number [new Date(s).getTime()] gives for it ([NaN] when it
    does not parse). *)

Module Rule.
Record t : Type := {
  id : string;
  name : string;
  enabled : bool;
  checkIntervalMinutes : Z;
  conditions : list TorBoxRuleCondition;
  action : TorBoxRuleAction;
  actionValue : option string;
  scope : option TorBoxRuleScope;
  isDangerous : option bool;
  isCustom : option bool;
  lastRunAt : option Z;
  lastResult : option string;
  runCount : Z;
  createdAt : Z;
}.
End Rule.

Module Preset.
Record t : Type := {
  id : string;
  name : string;
  description : string;
  checkIntervalMinutes : Z;
  conditions : list TorBoxRuleCondition;
  action : TorBoxRuleAction;
  actionValue : option string;
  scope : option TorBoxRuleScope;
  isDangerous : option bool;
  category : string;
}.
End Preset.

Module Target.
Record t : Type := {
  source : AutomationSource;
  sourceId : number;
  name : string;
  progress : number;
  eta : number;
  downloadSpeed : number;
  downloadState : string;
  peers : number;
  ratio : number;
  availability : number;
  createdAt : number;
  tracker : option string;
  stalledMinutes : number;
  fileIds : list number;
  size : number;
}.
End Target.

Definition cond (f : TorBoxRuleConditionField) (o : TorBoxRuleOperator) (v : string)
  : TorBoxRuleCondition :=
  {| field := f; operator := o; value := v |}.

Definition preset (id name description : string) (interval : Z)
    (conditions : list TorBoxRuleCondition) (action : TorBoxRuleAction)
    (scope : option TorBoxRuleScope) (isDangerous : option bool) (category : string)
  : Preset.t :=
  {| Preset.id := id; Preset.name := name; Preset.description := description;
     Preset.checkIntervalMinutes := interval; Preset.conditions := conditions;
     Preset.action := action; Preset.actionValue := None; Preset.scope := scope;
     Preset.isDangerous := isDangerous; Preset.category := category |}.

Definition TORBOX_RULE_PRESETS : list Preset.t := [
  preset "pause_stalled_downloads" "Pause stalled downloads"
    "Pauses active items stalled for more than 20 minutes." 10
    [cond f_download_stalled_time greater_than "20"] pause_download None None "transfer";
  preset "resume_when_progress_seen" "Resume paused downloads"
    "Resumes paused downloads automatically." 10
    [cond f_status equals "paused"] resume_download None None "transfer";
  preset "reannounce_stalled_torrents" "Reannounce stalled torrents"
    "Reannounces stalled torrents to refresh trackers." 15
    [cond f_download_stalled_time greater_than "15"] reannounce_torrent
    (Some scope_torrent) None "maintenance";
  preset "completed_notify" "Notify on completion"
    "Creates a local notification when an item reaches 100%." 5
    [cond f_progress equals "100"] notify_user None None "completion";
  preset "notify_errors" "Notify on failed downloads"
    "Creates a local notification when a download enters error state." 5
    [cond f_status equals "error"] notify_user None None "transfer";
  preset "completed_get_link" "Auto-generate download link"
    "Requests a download link when item completes." 10
    [cond f_progress equals "100"] request_download_link None None "completion";
  preset "stream_ready_media" "Create stream links for completed media"
    "Requests stream links for completed items." 15
    [cond f_progress equals "100"] create_stream None None "playback";
  preset "delete_very_old_completed" "Delete very old completed"
    "Deletes completed downloads older than 60 days. DANGEROUS." 1440
    [cond f_age greater_than "60"; cond f_progress equals "100"] delete_download
    None (Some true) "completion";
  preset "auto_delete_old_failed" "Auto-delete old failed downloads"
    "Deletes failed downloads older than 7 days. DANGEROUS." 1440
    [cond f_status equals "error"; cond f_age greater_than "7"] delete_download
    None (Some true) "completion";
  preset "pause_high_eta_downloads" "Pause very long ETA downloads"
    "Pauses items with ETA above 2 days (172800s)." 20
    [cond f_eta greater_than "172800"] pause_download None None "transfer";
  preset "resume_stalled_items" "Resume stalled transfers"
    "Resumes stalled transfers to kick progress." 15
    [cond f_status contains "stalled"] resume_download None None "transfer";
  preset "notify_slow_downloads" "Notify on slow downloads"
    "Sends notification when download speed drops below 10KB/s." 10
    [cond f_current_download_speed less_than "10240"; cond f_status contains "download"]
    notify_user None None "transfer";
  preset "generate_links_for_cached" "Generate links for cached items"
    "Requests download links for cached/completed items." 30
    [cond f_status contains "cached"] request_download_link None None "completion";
  preset "stream_ready_cached" "Create stream links for cached items"
    "Builds stream links for cached/completed files." 30
    [cond f_status contains "cached"] create_stream None None "playback";
  preset "notify_torrent_tracker_issues" "Notify tracker-related stalls"
    "Notifies when torrent tracker field contains warning text." 15
    [cond f_tracker contains "error"] notify_user (Some scope_torrent) None "maintenance"
].

(** The string an action is at run time. *)
Definition action_string (a : TorBoxRuleAction) : string :=
  match a with
  | delete_download => "delete_download"
  | pause_download => "pause_download"
  | resume_download => "resume_download"
  | reannounce_torrent => "reannounce_torrent"
  | request_download_link => "request_download_link"
  | create_stream => "create_stream"
  | notify_user => "notify_user"
  end.

Definition ALL_ACTIONS : list TorBoxRuleAction :=
  [delete_download; pause_download; resume_download; reannounce_torrent;
   request_download_link; create_stream; notify_user].

(** [SUPPORTED_ACTION_SET.has(action)]. *)
Definition SUPPORTED_ACTION_SET_has (a : TorBoxRuleAction) : bool :=
  bool_decide (a ∈ ALL_ACTIONS).

Definition isActionSupportedForScope (action : TorBoxRuleAction) (scope : TorBoxRuleScope)
  : bool :=
  negb (bool_decide (action = reannounce_torrent)
        && negb (bool_decide (scope = scope_torrent))).

(** [createRuleFromPreset]; [now] is what [Date.now()] returns. *)
Definition createRuleFromPreset (now : Z) (p : Preset.t) : Rule.t :=
  {| Rule.id := "rule_" +:+ Preset.id p +:+ "_" +:+ digits_of_Z now;
     Rule.name := Preset.name p;
     Rule.enabled := false;
     Rule.checkIntervalMinutes := Preset.checkIntervalMinutes p;
     Rule.conditions := map (fun c => {| field := field c; operator := operator c;
                                         value := value c |}) (Preset.conditions p);
     Rule.action := Preset.action p;
     Rule.actionValue := Preset.actionValue p;
     Rule.scope := Some (default scope_all (Preset.scope p));
     Rule.isDangerous := Preset.isDangerous p;
     Rule.isCustom := Some false;
     Rule.lastRunAt := None;
     Rule.lastResult := None;
     Rule.runCount := 0;
     Rule.createdAt := now |}.

(* ===================================================================== *)
(** * Predicate evaluator: [compareValues] and [matchesRule] *)
(* ===================================================================== *)

Definition compareValues (left : jsval) (rightRaw : string) (operator : TorBoxRuleOperator)
  : bool :=
  let rightNum := Number_of_string rightRaw in
  let leftNum := match left with VNum n => n | VStr s => Number_of_string s end in
  let right := if isFinite rightNum then VNum rightNum else VStr (toLowerCase rightRaw) in
  let l := if isFinite leftNum && is_number right then VNum leftNum
           else VStr (toLowerCase (ToString left)) in
  match operator with
  | equals => strict_eqb l right
  | not_equals => negb (strict_eqb l right)
  | greater_than => num_ltb (ToNumber right) (ToNumber l)
  | less_than => num_ltb (ToNumber l) (ToNumber right)
  | greater_than_or_equal => num_leb (ToNumber right) (ToNumber l)
  | less_than_or_equal => num_leb (ToNumber l) (ToNumber right)
  | contains => includes (ToString l) (ToString right)
  end.

(** [fieldMap[field]] inside [matchesRule]. *)
Definition fieldMap (now : Z) (target : Target.t) (f : TorBoxRuleConditionField) : jsval :=
  let ageDays :=
    Math_floor (num_div_pos (num_sub (Finite (inject_Z now)) (Target.createdAt target))
                            86400000) in
  match f with
  | f_progress => VNum (Target.progress target)
  | f_eta => VNum (Target.eta target)
  | f_current_download_speed => VNum (Target.downloadSpeed target)
  | f_average_download_speed => VNum (Target.downloadSpeed target)
  | f_download_stalled_time => VNum (Target.stalledMinutes target)
  | f_upload_stalled_time => VNum (Target.stalledMinutes target)
  | f_seeding_ratio => VNum (Target.ratio target)
  | f_peers => VNum (Target.peers target)
  | f_age => VNum ageDays
  | f_tracker => VStr (default "" (Target.tracker target))
  | f_availability => VNum (Target.availability target)
  | f_status => VStr (Target.downloadState target)
  | f_download_type => VStr (source_string (Target.source target))
  | f_name_contains => VStr (Target.name target)
  | f_size => VNum (Target.size target)
  end.

(** The callback of [rule.conditions.every]. *)
Definition condition_holds (now : Z) (target : Target.t) (c : TorBoxRuleCondition) : bool :=
  if String.eqb (trim (value c)) "" then true
  else compareValues (fieldMap now target (field c)) (value c) (operator c).

Definition matchesRule (now : Z) (rule : Rule.t) (target : Target.t) : bool :=
  match Rule.scope rule with
  | Some sc =>
      if negb (bool_decide (sc = scope_all)) && negb (source_is_scope (Target.source target) sc)
      then false
      else forallb (condition_holds now target) (Rule.conditions rule)
  | None => forallb (condition_holds now target) (Rule.conditions rule)
  end.

(** The comparison as the specification words it: numeric when both sides
    are numeric, and otherwise, whatever the operator, a comparison of the
    two sides as lower-cased strings. *)
Definition string_compare (operator : TorBoxRuleOperator) (l r : string) : bool :=
  match operator with
  | equals => String.eqb l r
  | not_equals => negb (String.eqb l r)
  | greater_than => String.ltb r l
  | less_than => String.ltb l r
  | greater_than_or_equal => String.leb r l
  | less_than_or_equal => String.leb l r
  | contains => includes l r
  end.

Definition numeric_compare (operator : TorBoxRuleOperator) (l r : number) : bool :=
  match operator with
  | equals => num_eqb l r
  | not_equals => negb (num_eqb l r)
  | greater_than => num_ltb r l
  | less_than => num_ltb l r
  | greater_than_or_equal => num_leb r l
  | less_than_or_equal => num_leb l r
  | contains => includes (String_of_number l) (String_of_number r)
  end.

Definition compareValues_spec (left : jsval) (rightRaw : string)
    (operator : TorBoxRuleOperator) : bool :=
  let rightNum := Number_of_string rightRaw in
  let leftNum := ToNumber left in
  if isFinite rightNum && isFinite leftNum
  then numeric_compare operator leftNum rightNum
  else string_compare operator (toLowerCase (ToString left)) (toLowerCase rightRaw).

(** Field updates used to state properties. *)
Definition set_conditions (cs : list TorBoxRuleCondition) (r : Rule.t) : Rule.t :=
  {| Rule.id := Rule.id r; Rule.name := Rule.name r; Rule.enabled := Rule.enabled r;
     Rule.checkIntervalMinutes := Rule.checkIntervalMinutes r;
     Rule.conditions := cs; Rule.action := Rule.action r;
     Rule.actionValue := Rule.actionValue r; Rule.scope := Rule.scope r;
     Rule.isDangerous := Rule.isDangerous r; Rule.isCustom := Rule.isCustom r;
     Rule.lastRunAt := Rule.lastRunAt r; Rule.lastResult := Rule.lastResult r;
     Rule.runCount := Rule.runCount r; Rule.createdAt := Rule.createdAt r |}.

Definition set_fileIds (ids : list number) (t : Target.t) : Target.t :=
  {| Target.source := Target.source t; Target.sourceId := Target.sourceId t;
     Target.name := Target.name t; Target.progress := Target.progress t;
     Target.eta := Target.eta t; Target.downloadSpeed := Target.downloadSpeed t;
     Target.downloadState := Target.downloadState t; Target.peers := Target.peers t;
     Target.ratio := Target.ratio t; Target.availability := Target.availability t;
     Target.createdAt := Target.createdAt t; Target.tracker := Target.tracker t;
     Target.stalledMinutes := Target.stalledMinutes t; Target.fileIds := ids;
     Target.size := Target.size t |}.

(** A string of white space only (the empty string included). *)
Definition blank (s : string) : bool := forallb is_whitespace (chars s).

(* ===================================================================== *)
(** * Effects: the remote API, the stores and the event trace *)
(* ===================================================================== *)

(** What a rejected promise carries: an [Error] with its message, or any
    other value. *)
Inductive thrown : Type :=
  | ErrorObject (message : string)
  | OtherThrown.

Inductive outcome (A : Type) : Type :=
  | Returned (a : A)
  | Threw (e : thrown).
Arguments Returned {A} a.
Arguments Threw {A} e.

Inductive ControlOp : Type :=
  | op_pause
  | op_resume
  | op_reannounce.

(** The calls [executeAction] makes on [torboxApi]. *)
Inductive ApiCall : Type :=
  | controlTorrent (torrentId : number) (operation : ControlOp)
  | controlUsenet (usenetId : number) (operation : ControlOp)
  | controlWebDownload (webId : number) (operation : ControlOp)
  | deleteItem (source : AutomationSource) (sourceId : number)
  | getDownloadLink (source : AutomationSource) (sourceId : number) (fileId : number)
  | getStreamLink (source : AutomationSource) (sourceId : number) (fileId : number).

Inductive Trigger : Type :=
  | manual
  | poll.

(** Observable events, oldest first. *)
Inductive Event : Type :=
  | EvFetchTargets                       (* toTargets() issues its three fetches *)
  | EvExecuteAction (ruleId : string)    (* executeAction is entered for a run *)
  | EvApi (call : ApiCall)               (* a call on torboxApi *)
  | EvAlert (title message : string).    (* Alert.alert *)

Module Notification.
Record t : Type := {
  id : string;
  title : string;
  message : string;
  createdAt : Z;
  read : bool;
}.
End Notification.

Record World : Type := {
  w_rules : list Rule.t;                      (* the [rules] state of the hook *)
  w_runLock : gset string;                    (* runLockRef.current *)
  w_saved : list Rule.t;                      (* AsyncStorage, RULES_STORAGE_KEY *)
  w_notifications : list Notification.t;      (* AsyncStorage, APP_NOTIFICATIONS_KEY *)
  w_trace : list Event;
}.

(** How the stored notifications read at one call of [getAppNotifications].
    The store may hold what other code or an older version wrote: [shaped]
    is the test the reader applies to an entry of the stored array (a string
    [id], [title], [message] and [createdAt]). *)
Inductive NotificationsRead : Type :=
  | ReadThrows                                  (* getItem or JSON.parse throws *)
  | ReadNoArray                                 (* nothing stored, or no array stored *)
  | ReadArray (shaped : Notification.t -> bool).

(** What the surroundings answer during one step of the engine. *)
Record Env : Type := {
  now : Z;                                    (* Date.now() *)
  random : string;                            (* Math.random().toString(36).slice(2, 8) *)
  snapshot : outcome (list Target.t);         (* how toTargets() settles *)
  api : ApiCall -> option thrown;             (* Some e: the call rejects with e *)
  notify_read : NotificationsRead;            (* the read in getAppNotifications *)
  notify_write : option thrown;               (* setItem in appendAppNotification *)
  rules_write_ok : bool;                      (* setItem in persistRules *)
  confirm : bool;                             (* the button pressed on a confirmation *)
}.

Definition M (A : Type) : Type := World -> World * outcome A.

Definition ret {A} (a : A) : M A := fun w => (w, Returned a).

Definition bind {A B} (m : M A) (k : A -> M B) : M B :=
  fun w =>
    match m w with
    | (w', Returned a) => k a w'
    | (w', Threw e) => (w', Threw e)
    end.

Notation "'let*' x := m 'in' k" := (bind m (fun x => k))
  (at level 10, x name, m at level 100, k at level 200, only parsing).
Notation "m ;;; k" := (bind m (fun _ => k))
  (at level 100, k at level 200, right associativity, only parsing).

Definition throw {A} (e : thrown) : M A := fun w => (w, Threw e).

Definition when (b : bool) (m : M unit) : M unit := if b then m else ret tt.

Definition try_catch {A} (body : M A) (handler : thrown -> M A) : M A :=
  fun w =>
    match body w with
    | (w', Threw e) => handler e w'
    | r => r
    end.

Definition finally {A} (body : M A) (cleanup : World -> World) : M A :=
  fun w => let '(w', o) := body w in (cleanup w', o).

Definition set_rules (rs : list Rule.t) (w : World) : World :=
  {| w_rules := rs; w_runLock := w_runLock w; w_saved := w_saved w;
     w_notifications := w_notifications w; w_trace := w_trace w |}.

Definition set_saved (rs : list Rule.t) (w : World) : World :=
  {| w_rules := w_rules w; w_runLock := w_runLock w; w_saved := rs;
     w_notifications := w_notifications w; w_trace := w_trace w |}.

Definition set_runLock (l : gset string) (w : World) : World :=
  {| w_rules := w_rules w; w_runLock := l; w_saved := w_saved w;
     w_notifications := w_notifications w; w_trace := w_trace w |}.

Definition set_notifications (ns : list Notification.t) (w : World) : World :=
  {| w_rules := w_rules w; w_runLock := w_runLock w; w_saved := w_saved w;
     w_notifications := ns; w_trace := w_trace w |}.

Definition log (e : Event) (w : World) : World :=
  {| w_rules := w_rules w; w_runLock := w_runLock w; w_saved := w_saved w;
     w_notifications := w_notifications w; w_trace := w_trace w ++ [e] |}.

Definition emit (e : Event) : M unit := fun w => (log e w, Returned tt).

Definition MAX_NOTIFICATIONS : nat := 200.

Section Engine.

Variable env : Env.

(** [await torboxApi.<call>]. *)
Definition api_call (c : ApiCall) : M unit :=
  fun w =>
    match api env c with
    | Some e => (log (EvApi c) w, Threw e)
    | None => (log (EvApi c) w, Returned tt)
    end.

(** [getAppNotifications]: the entries of the stored array that pass the
    shape test; the empty list when nothing or no array is stored, and when
    the read or the parse throws (the error is caught). *)
Definition getAppNotifications (w : World) : list Notification.t :=
  match notify_read env with
  | ReadThrows => []
  | ReadNoArray => []
  | ReadArray shaped => List.filter shaped (w_notifications w)
  end.

(** [appendAppNotification({ title, message })]. *)
Definition appendAppNotification (title message : string) : M Notification.t :=
  fun w =>
    let notification :=
      {| Notification.id := "local-" +:+ digits_of_Z (now env) +:+ "-" +:+ random env;
         Notification.title := title;
         Notification.message := message;
         Notification.createdAt := now env;
         Notification.read := false |} in
    let existing := getAppNotifications w in
    let next := take MAX_NOTIFICATIONS (notification :: existing) in
    match notify_write env with
    | Some e => (w, Threw e)
    | None => (set_notifications next w, Returned notification)
    end.

(* ===================================================================== *)
(** * Action executor: [executeAction] *)
(* ===================================================================== *)

Definition is_source (t : Target.t) (s : AutomationSource) : bool :=
  bool_decide (Target.source t = s).

(** The body of the [for] loop for one target; the result tells whether
    [affected++] was reached. *)
Definition applyAction (rule : Rule.t) (target : Target.t) : M bool :=
  match Rule.action rule with
  | pause_download =>
      when (is_source target torrent)
           (api_call (controlTorrent (Target.sourceId target) op_pause)) ;;;
      when (is_source target usenet)
           (api_call (controlUsenet (Target.sourceId target) op_pause)) ;;;
      when (is_source target web)
           (api_call (controlWebDownload (Target.sourceId target) op_pause)) ;;;
      ret true
  | resume_download =>
      when (is_source target torrent)
           (api_call (controlTorrent (Target.sourceId target) op_resume)) ;;;
      when (is_source target usenet)
           (api_call (controlUsenet (Target.sourceId target) op_resume)) ;;;
      when (is_source target web)
           (api_call (controlWebDownload (Target.sourceId target) op_resume)) ;;;
      ret true
  | reannounce_torrent =>
      if is_source target torrent then
        api_call (controlTorrent (Target.sourceId target) op_reannounce) ;;;
        ret true
      else ret false
  | delete_download =>
      api_call (deleteItem (Target.source target) (Target.sourceId target)) ;;;
      ret true
  | request_download_link =>
      match head (Target.fileIds target) with
      | Some fileId =>
          if truthy_number fileId then
            api_call (getDownloadLink (Target.source target) (Target.sourceId target) fileId) ;;;
            ret true
          else ret false
      | None => ret false
      end
  | create_stream =>
      match head (Target.fileIds target) with
      | Some fileId =>
          if truthy_number fileId then
            api_call (getStreamLink (Target.source target) (Target.sourceId target) fileId) ;;;
            ret true
          else ret false
      | None => ret false
      end
  | notify_user => ret true
  end.

(** The [for (const target of targets)] loop, threading [affected]. *)
Fixpoint forTargets (rule : Rule.t) (targets : list Target.t) (affected : nat) : M nat :=
  match targets with
  | [] => ret affected
  | target :: rest =>
      let* counted := applyAction rule target in
      forTargets rule rest (if counted then S affected else affected)
  end.

Definition plural (affected : nat) : string :=
  if Nat.eqb affected 1 then "" else "s".

Definition executeAction (rule : Rule.t) (targets : list Target.t) : M string :=
  match targets with
  | [] => ret "No matching downloads found."
  | _ =>
      let* affected := forTargets rule targets 0%nat in
      when (Nat.ltb 0 affected)
           (let* _ := appendAppNotification "Automation ran"
                        (Rule.name rule +:+ " processed " +:+ digits_of_Z (Z.of_nat affected)
                         +:+ " item" +:+ plural affected +:+ ".") in
            ret tt) ;;;
      ret (if Nat.ltb 0 affected
           then "Processed " +:+ digits_of_Z (Z.of_nat affected) +:+ " item"
                +:+ plural affected +:+ "."
           else "No supported items matched this action.")
  end.

End Engine.

(* ===================================================================== *)
(** * The hook: rule store, run scheduling *)
(* ===================================================================== *)

(** [{ ...r, lastResult: 'Unsupported scope/action combination.', enabled: false }] *)
Definition mark_unsupported (r : Rule.t) : Rule.t :=
  {| Rule.id := Rule.id r; Rule.name := Rule.name r; Rule.enabled := false;
     Rule.checkIntervalMinutes := Rule.checkIntervalMinutes r;
     Rule.conditions := Rule.conditions r; Rule.action := Rule.action r;
     Rule.actionValue := Rule.actionValue r; Rule.scope := Rule.scope r;
     Rule.isDangerous := Rule.isDangerous r; Rule.isCustom := Rule.isCustom r;
     Rule.lastRunAt := Rule.lastRunAt r;
     Rule.lastResult := Some "Unsupported scope/action combination.";
     Rule.runCount := Rule.runCount r; Rule.createdAt := Rule.createdAt r |}.

(** [{ ...r, lastRunAt: new Date().toISOString(), runCount: r.runCount + 1, lastResult }] *)
Definition record_run (at_ms : Z) (lastResult : string) (r : Rule.t) : Rule.t :=
  {| Rule.id := Rule.id r; Rule.name := Rule.name r; Rule.enabled := Rule.enabled r;
     Rule.checkIntervalMinutes := Rule.checkIntervalMinutes r;
     Rule.conditions := Rule.conditions r; Rule.action := Rule.action r;
     Rule.actionValue := Rule.actionValue r; Rule.scope := Rule.scope r;
     Rule.isDangerous := Rule.isDangerous r; Rule.isCustom := Rule.isCustom r;
     Rule.lastRunAt := Some at_ms;
     Rule.lastResult := Some lastResult;
     Rule.runCount := Rule.runCount r + 1; Rule.createdAt := Rule.createdAt r |}.

(** [{ ...r, enabled }] *)
Definition set_enabled (enabled : bool) (r : Rule.t) : Rule.t :=
  {| Rule.id := Rule.id r; Rule.name := Rule.name r; Rule.enabled := enabled;
     Rule.checkIntervalMinutes := Rule.checkIntervalMinutes r;
     Rule.conditions := Rule.conditions r; Rule.action := Rule.action r;
     Rule.actionValue := Rule.actionValue r; Rule.scope := Rule.scope r;
     Rule.isDangerous := Rule.isDangerous r; Rule.isCustom := Rule.isCustom r;
     Rule.lastRunAt := Rule.lastRunAt r; Rule.lastResult := Rule.lastResult r;
     Rule.runCount := Rule.runCount r; Rule.createdAt := Rule.createdAt r |}.

(** The argument of [updateRule]: a field is [Some] when the key is given. *)
Record RuleUpdates : Type := {
  u_name : option string;
  u_checkIntervalMinutes : option Z;
  u_conditions : option (list TorBoxRuleCondition);
  u_action : option TorBoxRuleAction;
  u_actionValue : option string;
  u_scope : option TorBoxRuleScope;
}.

(** [{ ...r, ...updates }] *)
Definition apply_updates (u : RuleUpdates) (r : Rule.t) : Rule.t :=
  {| Rule.id := Rule.id r;
     Rule.name := default (Rule.name r) (u_name u);
     Rule.enabled := Rule.enabled r;
     Rule.checkIntervalMinutes :=
       default (Rule.checkIntervalMinutes r) (u_checkIntervalMinutes u);
     Rule.conditions := default (Rule.conditions r) (u_conditions u);
     Rule.action := default (Rule.action r) (u_action u);
     Rule.actionValue :=
       match u_actionValue u with Some v => Some v | None => Rule.actionValue r end;
     Rule.scope := match u_scope u with Some s => Some s | None => Rule.scope r end;
     Rule.isDangerous := Rule.isDangerous r; Rule.isCustom := Rule.isCustom r;
     Rule.lastRunAt := Rule.lastRunAt r; Rule.lastResult := Rule.lastResult r;
     Rule.runCount := Rule.runCount r; Rule.createdAt := Rule.createdAt r |}.

(** The argument of [createCustomRule]. *)
Record CustomRuleParams : Type := {
  p_name : string;
  p_checkIntervalMinutes : Z;
  p_conditions : list TorBoxRuleCondition;
  p_action : TorBoxRuleAction;
  p_actionValue : option string;
  p_scope : option TorBoxRuleScope;
}.

(** [rules.find(r => r.id === ruleId)] *)
Definition find_rule (rules : list Rule.t) (ruleId : string) : option Rule.t :=
  List.find (fun r => String.eqb (Rule.id r) ruleId) rules.

(** [rules.map(r => r.id === ruleId ? f(r) : r)] *)
Definition map_rule (rules : list Rule.t) (ruleId : string) (f : Rule.t -> Rule.t)
  : list Rule.t :=
  map (fun r => if String.eqb (Rule.id r) ruleId then f r else r) rules.

(** A run that holds the run-lock and waits for its snapshot. *)
Record Run : Type := {
  run_ruleId : string;
  run_rule : Rule.t;
  run_trigger : Trigger;
}.

Definition trigger_label (t : Trigger) : string :=
  match t with
  | manual => "Manual run"
  | poll => "Scheduled run"
  end.

Definition is_manual (t : Trigger) : bool :=
  match t with
  | manual => true
  | poll => false
  end.

(** [err instanceof Error ? err.message : 'Execution failed'] *)
Definition error_message (err : thrown) : string :=
  match err with
  | ErrorObject m => m
  | OtherThrown => "Execution failed"
  end.

(** Counters over the trace, for stating what a trigger set off. *)
Definition count_fetches (tr : list Event) : nat :=
  length (List.filter (fun e => match e with EvFetchTargets => true | _ => false end) tr).

Definition count_executions (tr : list Event) : nat :=
  length (List.filter (fun e => match e with EvExecuteAction _ => true | _ => false end) tr).

Definition count_api_calls (tr : list Event) : nat :=
  length (List.filter (fun e => match e with EvApi _ => true | _ => false end) tr).

Section Hook.

Variable env : Env.

(** The rule list the callbacks of one render closed over. *)
Variable rules : list Rule.t.

(** [persistRules]: sets the state, then writes the store; a failed write
    is logged and swallowed. *)
Definition persistRules (newRules : list Rule.t) : M unit :=
  fun w =>
    let w1 := set_rules newRules w in
    (if rules_write_ok env then set_saved newRules w1 else w1, Returned tt).

(** [runRule] up to its first suspension: the guards, the lock and the
    start of [toTargets()].  Nothing else runs in between. *)
Definition runRule_start (ruleId : string) (trigger : Trigger) (allowDisabled : bool)
    (w : World) : World * option Run :=
  if bool_decide (ruleId ∈ w_runLock w) then (w, None)
  else
    match find_rule rules ruleId with
    | None => (w, None)
    | Some rule =>
        if negb (Rule.enabled rule) && negb allowDisabled then (w, None)
        else if negb (isActionSupportedForScope (Rule.action rule)
                        (default scope_all (Rule.scope rule)))
        then ((persistRules (map_rule rules (Rule.id rule) mark_unsupported) w).1, None)
        else
          (log EvFetchTargets (set_runLock ({[ruleId]} ∪ w_runLock w) w),
           Some {| run_ruleId := ruleId; run_rule := rule; run_trigger := trigger |})
    end.

(** The [try] block of [runRule]. *)
Definition runRule_try (run : Run) : M unit :=
  let rule := run_rule run in
  let* items := (fun w => (w, snapshot env)) in
  let targets := List.filter (fun item => matchesRule (now env) rule item) items in
  emit (EvExecuteAction (Rule.id rule)) ;;;
  let* result := executeAction env rule targets in
  persistRules (map_rule rules (Rule.id rule)
                  (record_run (now env) (trigger_label (run_trigger run) +:+ ": " +:+ result))) ;;;
  when (is_manual (run_trigger run))
       (emit (EvAlert "Rule Executed" (Rule.name rule +:+ ": " +:+ result))).

(** The [catch] block of [runRule]. *)
Definition runRule_catch (run : Run) (err : thrown) : M unit :=
  let rule := run_rule run in
  let message := error_message err in
  persistRules (map_rule rules (Rule.id rule)
                  (record_run (now env) ("Failed: " +:+ message))) ;;;
  when (is_manual (run_trigger run)) (emit (EvAlert "Rule Failed" message)).

(** [runRule] from the arrival of the snapshot to the [finally] block. *)
Definition runRule_finish (run : Run) : M unit :=
  finally (try_catch (runRule_try run) (runRule_catch run))
          (fun w => set_runLock (w_runLock w ∖ {[run_ruleId run]}) w).

(** [runRule] run to completion with nothing interleaved. *)
Definition runRule (ruleId : string) (trigger : Trigger) (allowDisabled : bool)
    (w : World) : World :=
  match runRule_start ruleId trigger allowDisabled w with
  | (w', Some run) => (runRule_finish run w').1
  | (w', None) => w'
  end.

(** The test of the interval callback for one rule. *)
Definition is_due (rule : Rule.t) : bool :=
  Rule.enabled rule &&
  (let intervalMs := Z.max 1 (Rule.checkIntervalMinutes rule) * 60000 in
   let last := default 0 (Rule.lastRunAt rule) in
   intervalMs <=? now env - last).

(** The interval callback for one rule: [void runRule(rule.id, 'poll')] when
    the rule is due; a run it starts is left pending. *)
Definition tick_step (acc : World * list Run) (rule : Rule.t) : World * list Run :=
  if is_due rule then
    match runRule_start (Rule.id rule) poll false acc.1 with
    | (w', Some run) => (w', acc.2 ++ [run])
    | (w', None) => (w', acc.2)
    end
  else acc.

(** One firing of the 30 s interval over the rules, in list order. *)
Definition tick_start (w : World) : World * list Run :=
  fold_left tick_step rules (w, []).

(** [runNow] up to the first suspension of the [runRule] it calls. *)
Definition runNow_start (ruleId : string) (w : World) : World * option Run :=
  match find_rule rules ruleId with
  | None => (w, None)
  | Some rule =>
      match Rule.lastRunAt rule with
      | Some last =>
          if now env - last <? 30000 then
            (log (EvAlert "Throttled" "Please wait at least 30 seconds between manual runs.") w,
             None)
          else runRule_start ruleId manual true w
      | None => runRule_start ruleId manual true w
      end
  end.

(** [runNow] run to completion with nothing interleaved. *)
Definition runNow (ruleId : string) (w : World) : World :=
  match runNow_start ruleId w with
  | (w', Some run) => (runRule_finish run w').1
  | (w', None) => w'
  end.

(** [addRuleFromPreset]; [None] is the [null] result. *)
Definition addRuleFromPreset (presetId : string) : M (option Rule.t) :=
  match List.find (fun p => String.eqb (Preset.id p) presetId) TORBOX_RULE_PRESETS with
  | None => ret None
  | Some p =>
      let rule := createRuleFromPreset (now env) p in
      if bool_decide (Rule.isDangerous rule = Some true) then
        emit (EvAlert "Dangerous Rule"
                (String.String (Ascii.ascii_of_nat 34) (Rule.name rule) +:+
                 String.String (Ascii.ascii_of_nat 34)
                   " can permanently delete data. Add it as disabled draft?")) ;;;
        if confirm env then
          persistRules (rules ++ [rule]) ;;; ret (Some rule)
        else ret None
      else
        persistRules (rules ++ [rule]) ;;; ret (Some rule)
  end.

Definition createCustomRule (params : CustomRuleParams) : M Rule.t :=
  if negb (SUPPORTED_ACTION_SET_has (p_action params)) then
    throw (ErrorObject ("Unsupported automation action: " +:+ action_string (p_action params)))
  else
    let scope := default scope_all (p_scope params) in
    if negb (isActionSupportedForScope (p_action params) scope) then
      throw (ErrorObject "This action is not supported for the selected scope.")
    else
      let rule :=
        {| Rule.id := "rule_custom_" +:+ digits_of_Z (now env);
           Rule.name := p_name params;
           Rule.enabled := false;
           Rule.checkIntervalMinutes := Z.max 1 (p_checkIntervalMinutes params);
           Rule.conditions := p_conditions params;
           Rule.action := p_action params;
           Rule.actionValue := p_actionValue params;
           Rule.scope := Some scope;
           Rule.isDangerous := Some (bool_decide (p_action params = delete_download));
           Rule.isCustom := Some true;
           Rule.lastRunAt := None;
           Rule.lastResult := None;
           Rule.runCount := 0;
           Rule.createdAt := now env |} in
      persistRules (rules ++ [rule]) ;;; ret rule.

Definition toggleRule (ruleId : string) (enabled : bool) : M unit :=
  match find_rule rules ruleId with
  | None => ret tt
  | Some rule =>
      if enabled && negb (isActionSupportedForScope (Rule.action rule)
                            (default scope_all (Rule.scope rule)))
      then emit (EvAlert "Unsupported Rule"
                   "This rule uses an action/scope combination not supported by TorBox.")
      else if enabled && bool_decide (Rule.isDangerous rule = Some true) then
        emit (EvAlert "Enable Dangerous Rule"
                (String.String (Ascii.ascii_of_nat 34) (Rule.name rule) +:+
                 String.String (Ascii.ascii_of_nat 34)
                   " can permanently delete data. Enable anyway?")) ;;;
        when (confirm env) (persistRules (map_rule rules ruleId (set_enabled enabled)))
      else persistRules (map_rule rules ruleId (set_enabled enabled))
  end.

Definition updateRule (ruleId : string) (updates : RuleUpdates) : M unit :=
  match find_rule rules ruleId with
  | None => ret tt
  | Some existing =>
      let nextAction := default (Rule.action existing) (u_action updates) in
      let nextScope :=
        match u_scope updates with
        | Some s => s
        | None => default scope_all (Rule.scope existing)
        end in
      if negb (isActionSupportedForScope nextAction nextScope) then
        emit (EvAlert "Unsupported Rule" "That action is not supported for the selected scope.")
      else persistRules (map_rule rules ruleId (apply_updates updates))
  end.

Definition deleteRule (ruleId : string) : M unit :=
  persistRules (List.filter (fun r => negb (String.eqb (Rule.id r) ruleId)) rules).

End Hook.

(* ===================================================================== *)
(** * Concrete rules, targets and surroundings used in the examples *)
(* ===================================================================== *)

Module Sample.

Definition target (src : AutomationSource) (id : Z) (progress : number)
    (state : string) (fileIds : list number) : Target.t :=
  {| Target.source := src; Target.sourceId := Finite (inject_Z id);
     Target.name := "ubuntu.iso"; Target.progress := progress;
     Target.eta := Finite 0; Target.downloadSpeed := Finite 0;
     Target.downloadState := state; Target.peers := Finite 0;
     Target.ratio := Finite 0; Target.availability := Finite 0;
     Target.createdAt := Finite 1700000000000; Target.tracker := None;
     Target.stalledMinutes := Finite 0; Target.fileIds := fileIds;
     Target.size := Finite 1000 |}.

Definition rule (id : string) (action : TorBoxRuleAction) (scope : option TorBoxRuleScope)
    (conditions : list TorBoxRuleCondition) (enabled : bool) : Rule.t :=
  {| Rule.id := id; Rule.name := "My rule"; Rule.enabled := enabled;
     Rule.checkIntervalMinutes := 5; Rule.conditions := conditions;
     Rule.action := action; Rule.actionValue := None; Rule.scope := scope;
     Rule.isDangerous := None; Rule.isCustom := Some true;
     Rule.lastRunAt := None; Rule.lastResult := None;
     Rule.runCount := 0; Rule.createdAt := 0 |}.

Definition world (rs : list Rule.t) : World :=
  {| w_rules := rs; w_runLock := ∅; w_saved := rs; w_notifications := [];
     w_trace := [] |}.

Definition surroundings (snap : outcome (list Target.t)) (api : ApiCall -> option thrown)
  : Env :=
  {| now := 1700000600000; random := "k3x9qa"; snapshot := snap; api := api;
     notify_read := ReadArray (fun _ => true);
     notify_write := None; rules_write_ok := true; confirm := true |}.

Definition api_ok : ApiCall -> option thrown := fun _ => None.

(** The remote API rejects every torrent control call. *)
Definition api_torrent_down : ApiCall -> option thrown :=
  fun c =>
    match c with
    | controlTorrent _ _ => Some (ErrorObject "Failed to pause torrent")
    | _ => None
    end.

(** Scenario A of the specification: progress is the 0..1 fraction, 1.0 for
    a finished item and the double nearest to 0.4 for the other. *)
Definition done_item : Target.t := target torrent 1 (Finite 1) "completed" [Finite 11].
Definition partial_item : Target.t :=
  target usenet 2 (round64 (4 # 10)) "downloading" [Finite 0; Finite 22].

Definition scenario_A_rule : Rule.t :=
  rule "rule_a" notify_user (Some scope_all) [cond f_progress equals "100"] true.

Definition pause_all (enabled : bool) : Rule.t :=
  rule "rule_p" pause_download (Some scope_all) [] enabled.

Definition link_all : Rule.t :=
  rule "rule_l" request_download_link (Some scope_all) [] true.

End Sample.

(* ===================================================================== *)
(** * Snapshot builder: [toTargets] *)
(* ===================================================================== *)

(** [Math.max(0, x)]. *)
Definition Math_max0 (x : number) : number :=
  match x with
  | NaN => NaN
  | Infinity true => Finite 0
  | Infinity false => x
  | Finite q => if Qle_bool q 0 then Finite 0 else x
  end.

(** The fields [toTargets] reads of the three kinds of remote record.  A
    field the code guards with [??] is optional; [files] holds the ids of
    the files. *)
Module TorBoxItem.
Record t : Type := {
  id : number;
  name : string;
  size : number;
  created_at : number;
  updated_at : number;
  download_state : string;
  peers : option number;
  ratio : option number;
  progress : number;
  download_speed : number;
  eta : number;
  files : option (list number);
  availability : option number;
  tracker : option string;
}.
End TorBoxItem.

Module TorBoxUsenetItem.
Record t : Type := {
  id : number;
  name : string;
  size : number;
  created_at : number;
  updated_at : number;
  download_state : string;
  progress : number;
  download_speed : number;
  eta : number;
  files : option (list number);
}.
End TorBoxUsenetItem.

Module TorBoxWebItem.
Record t : Type := {
  id : number;
  webdownload_id : option number;
  web_id : option number;
  name : string;
  size : number;
  created_at : number;
  updated_at : number;
  download_state : string;
  progress : number;
  download_speed : number;
  eta : number;
  files : option (list number);
}.
End TorBoxWebItem.

(** [Math.max(0, Math.floor((now - new Date(updated_at).getTime()) / 60000))] *)
Definition stalledMinutes_of (now : Z) (updated_at : number) : number :=
  Math_max0 (Math_floor (num_div_pos (num_sub (Finite (inject_Z now)) updated_at) 60000)).

Definition target_of_torrent (now : Z) (t : TorBoxItem.t) : Target.t :=
  {| Target.source := torrent; Target.sourceId := TorBoxItem.id t;
     Target.name := TorBoxItem.name t; Target.progress := TorBoxItem.progress t;
     Target.eta := TorBoxItem.eta t; Target.downloadSpeed := TorBoxItem.download_speed t;
     Target.downloadState := TorBoxItem.download_state t;
     Target.peers := default (Finite 0) (TorBoxItem.peers t);
     Target.ratio := default (Finite 0) (TorBoxItem.ratio t);
     Target.availability := default (Finite 0) (TorBoxItem.availability t);
     Target.createdAt := TorBoxItem.created_at t; Target.tracker := TorBoxItem.tracker t;
     Target.stalledMinutes := stalledMinutes_of now (TorBoxItem.updated_at t);
     Target.fileIds := default [] (TorBoxItem.files t);
     Target.size := TorBoxItem.size t |}.

Definition target_of_usenet (now : Z) (u : TorBoxUsenetItem.t) : Target.t :=
  {| Target.source := usenet; Target.sourceId := TorBoxUsenetItem.id u;
     Target.name := TorBoxUsenetItem.name u; Target.progress := TorBoxUsenetItem.progress u;
     Target.eta := TorBoxUsenetItem.eta u;
     Target.downloadSpeed := TorBoxUsenetItem.download_speed u;
     Target.downloadState := TorBoxUsenetItem.download_state u;
     Target.peers := Finite 0; Target.ratio := Finite 0; Target.availability := Finite 0;
     Target.createdAt := TorBoxUsenetItem.created_at u; Target.tracker := None;
     Target.stalledMinutes := stalledMinutes_of now (TorBoxUsenetItem.updated_at u);
     Target.fileIds := default [] (TorBoxUsenetItem.files u);
     Target.size := TorBoxUsenetItem.size u |}.

Definition target_of_web (now : Z) (w : TorBoxWebItem.t) : Target.t :=
  {| Target.source := web;
     Target.sourceId :=
       match TorBoxWebItem.webdownload_id w with
       | Some i => i
       | None => default (TorBoxWebItem.id w) (TorBoxWebItem.web_id w)
       end;
     Target.name := TorBoxWebItem.name w; Target.progress := TorBoxWebItem.progress w;
     Target.eta := TorBoxWebItem.eta w;
     Target.downloadSpeed := TorBoxWebItem.download_speed w;
     Target.downloadState := TorBoxWebItem.download_state w;
     Target.peers := Finite 0; Target.ratio := Finite 0; Target.availability := Finite 0;
     Target.createdAt := TorBoxWebItem.created_at w; Target.tracker := None;
     Target.stalledMinutes := stalledMinutes_of now (TorBoxWebItem.updated_at w);
     Target.fileIds := default [] (TorBoxWebItem.files w);
     Target.size := TorBoxWebItem.size w |}.

(** What [toTargets] returns once its three fetches have arrived. *)
Definition toTargets_of (now : Z) (torrents : list TorBoxItem.t)
    (usenetItems : list TorBoxUsenetItem.t) (webItems : list TorBoxWebItem.t)
  : list Target.t :=
  map (target_of_torrent now) torrents
  ++ map (target_of_usenet now) usenetItems
  ++ map (target_of_web now) webItems.

(* ===================================================================== *)
(** * Loading the stored rules (the mount effect of the hook) *)
(* ===================================================================== *)

(** A rule as [JSON.parse] hands it over: its [action] is whatever string
    was stored. *)
Module StoredRule.
Record t : Type := {
  id : string;
  name : string;
  enabled : bool;
  checkIntervalMinutes : Z;
  conditions : list TorBoxRuleCondition;
  action : string;
  actionValue : option string;
  scope : option TorBoxRuleScope;
  isDangerous : option bool;
  isCustom : option bool;
  lastRunAt : option Z;
  lastResult : option string;
  runCount : Z;
  createdAt : Z;
}.
End StoredRule.

Definition action_of_string (s : string) : option TorBoxRuleAction :=
  List.find (fun a => String.eqb (action_string a) s) ALL_ACTIONS.

(** [SUPPORTED_ACTION_SET.has(rule.action)] on a stored rule. *)
Definition SUPPORTED_ACTION_SET_has_stored (r : StoredRule.t) : bool :=
  bool_decide (StoredRule.action r ∈ map action_string ALL_ACTIONS).

(** What [JSON.stringify] writes for a rule. *)
Definition stored_of_rule (r : Rule.t) : StoredRule.t :=
  {| StoredRule.id := Rule.id r; StoredRule.name := Rule.name r;
     StoredRule.enabled := Rule.enabled r;
     StoredRule.checkIntervalMinutes := Rule.checkIntervalMinutes r;
     StoredRule.conditions := Rule.conditions r;
     StoredRule.action := action_string (Rule.action r);
     StoredRule.actionValue := Rule.actionValue r; StoredRule.scope := Rule.scope r;
     StoredRule.isDangerous := Rule.isDangerous r; StoredRule.isCustom := Rule.isCustom r;
     StoredRule.lastRunAt := Rule.lastRunAt r; StoredRule.lastResult := Rule.lastResult r;
     StoredRule.runCount := Rule.runCount r; StoredRule.createdAt := Rule.createdAt r |}.

(** A stored rule read as a [TorBoxRule]; defined when its action is one. *)
Definition rule_of_stored (s : StoredRule.t) : option Rule.t :=
  match action_of_string (StoredRule.action s) with
  | Some a =>
      Some {| Rule.id := StoredRule.id s; Rule.name := StoredRule.name s;
              Rule.enabled := StoredRule.enabled s;
              Rule.checkIntervalMinutes := StoredRule.checkIntervalMinutes s;
              Rule.conditions := StoredRule.conditions s; Rule.action := a;
              Rule.actionValue := StoredRule.actionValue s; Rule.scope := StoredRule.scope s;
              Rule.isDangerous := StoredRule.isDangerous s;
              Rule.isCustom := StoredRule.isCustom s;
              Rule.lastRunAt := StoredRule.lastRunAt s;
              Rule.lastResult := StoredRule.lastResult s;
              Rule.runCount := StoredRule.runCount s;
              Rule.createdAt := StoredRule.createdAt s |}
  | None => None
  end.

(** The mount effect: [stored] is how [AsyncStorage.getItem] followed by
    [JSON.parse] ends, [None] standing for nothing stored.  The result is
    the rule list set and the [isLoaded] flag. *)
Definition loadRules (stored : outcome (option (list StoredRule.t))) : list Rule.t * bool :=
  match stored with
  | Returned (Some parsed) =>
      (omap rule_of_stored (List.filter SUPPORTED_ACTION_SET_has_stored parsed), true)
  | Returned None => ([], true)
  | Threw _ => ([], true)
  end.

(** [enabledCount] *)
Definition enabledCount (rules : list Rule.t) : nat :=
  length (List.filter Rule.enabled rules).

(** [presetsByCategory]: the loop over the presets, on any list of them. *)
Definition presetsByCategory_of (presets : list Preset.t) : gmap string (list Preset.t) :=
  fold_left
    (fun m p =>
       <[Preset.category p := default [] (m !! Preset.category p) ++ [p]]> m)
    presets ∅.

(** The legality of a rule's action for its scope, as every guard tests it. *)
Definition rule_legal (r : Rule.t) : bool :=
  isActionSupportedForScope (Rule.action r) (default scope_all (Rule.scope r)).

(* ===================================================================== *)
(** * The link cache of [torboxApi] *)
(* ===================================================================== *)

Definition LINK_CACHE_TTL_MS : Z := 3 * 60 * 60 * 1000.

Record CachedLink : Type := {
  url : string;
  cachedAt : Z;
}.

Record DownloadLinkOptions : Type := {
  zipLink : option bool;
  torrentFile : option bool;
}.

(** The requests behind the link methods (a ghost record of what was asked
    of the server). *)
Inductive LinkRequest : Type :=
  | requestTorrentDownloadLink (torrentId fileId : number) (zip torrentFile : bool)
  | requestUsenetDownloadLink (usenetId fileId : number) (zip : bool)
  | requestWebDownloadLink (webId fileId : number) (zip : bool)
  | requestTorrentStreamLink (torrentId fileId : number)
  | requestUsenetStreamLink (usenetId fileId : number)
  | requestWebStreamLink (webId fileId : number).

Record TorBoxAPI : Type := {
  linkCache : gmap string CachedLink;
  requested : list LinkRequest;
}.

Definition string_of_bool (b : bool) : string := if b then "true" else "false".

Definition opt_zipLink (options : option DownloadLinkOptions) : bool :=
  default false (options ≫= zipLink).

Definition opt_torrentFile (options : option DownloadLinkOptions) : bool :=
  default false (options ≫= torrentFile).

Definition downloadCacheKey (source : string) (sourceId fileId : number)
    (options : option DownloadLinkOptions) : string :=
  source +:+ "-" +:+ String_of_number sourceId +:+ "-" +:+ String_of_number fileId
  +:+ "-zip:" +:+ string_of_bool (opt_zipLink options)
  +:+ "-torrent:" +:+ string_of_bool (opt_torrentFile options).

Definition streamCacheKey (source : string) (sourceId fileId : number) : string :=
  "stream-" +:+ source +:+ "-" +:+ String_of_number sourceId +:+ "-"
  +:+ String_of_number fileId.

(** [cached && (Date.now() - cached.cachedAt) < LINK_CACHE_TTL_MS] *)
Definition fresh_link (now : Z) (api : TorBoxAPI) (key : string) : option string :=
  match linkCache api !! key with
  | Some cached => if now - cachedAt cached <? LINK_CACHE_TTL_MS then Some (url cached) else None
  | None => None
  end.

(** A request: it is recorded, and it settles as the server answers; the url
    is cached when it arrives. *)
Definition request_and_cache (arrived : Z) (answer : outcome string) (key : string)
    (req : LinkRequest) (api : TorBoxAPI) : TorBoxAPI * outcome string :=
  match answer with
  | Returned u =>
      ({| linkCache := <[key := {| url := u; cachedAt := arrived |}]> (linkCache api);
          requested := requested api ++ [req] |}, Returned u)
  | Threw e =>
      ({| linkCache := linkCache api; requested := requested api ++ [req] |}, Threw e)
  end.

(** The sources the link methods know. *)
Definition known_source (source : string) : Prop :=
  source = "torrent" \/ source = "usenet" \/ source = "web".

(** [getDownloadLink], called at [now]; [answer] is how the request settles if
    one is made, and [arrived] the time at which it does. *)
Definition getDownloadLink_cached (now arrived : Z) (answer : outcome string)
    (source : string)
    (sourceId fileId : number) (options : option DownloadLinkOptions) (api : TorBoxAPI)
  : TorBoxAPI * outcome string :=
  let zip := opt_zipLink options in
  let tf := opt_torrentFile options in
  let cacheKey := downloadCacheKey source sourceId fileId options in
  match fresh_link now api cacheKey with
  | Some u => (api, Returned u)
  | None =>
      if String.eqb source "torrent" then
        request_and_cache arrived answer cacheKey
          (requestTorrentDownloadLink sourceId fileId zip tf) api
      else if String.eqb source "usenet" then
        request_and_cache arrived answer cacheKey (requestUsenetDownloadLink sourceId fileId zip) api
      else if String.eqb source "web" then
        request_and_cache arrived answer cacheKey (requestWebDownloadLink sourceId fileId zip) api
      else (api, Threw (ErrorObject ("Unknown source: " +:+ source)))
  end.

(** [getStreamLink], with [now], [arrived] and [answer] as above. *)
Definition getStreamLink_cached (now arrived : Z) (answer : outcome string)
    (source : string)
    (sourceId fileId : number) (api : TorBoxAPI) : TorBoxAPI * outcome string :=
  let cacheKey := streamCacheKey source sourceId fileId in
  match fresh_link now api cacheKey with
  | Some u => (api, Returned u)
  | None =>
      if String.eqb source "torrent" then
        request_and_cache arrived answer cacheKey (requestTorrentStreamLink sourceId fileId) api
      else if String.eqb source "usenet" then
        request_and_cache arrived answer cacheKey (requestUsenetStreamLink sourceId fileId) api
      else if String.eqb source "web" then
        request_and_cache arrived answer cacheKey (requestWebStreamLink sourceId fileId) api
      else (api, Threw (ErrorObject ("Unknown source for stream: " +:+ source)))
  end.

(** [invalidateLinkCache]. *)
Definition invalidateLinkCache (source : string) (sourceId fileId : number)
    (options : option DownloadLinkOptions) (api : TorBoxAPI) : TorBoxAPI :=
  {| linkCache := delete (downloadCacheKey source sourceId fileId options) (linkCache api);
     requested := requested api |}.

(** [clearLinkCache]. *)
Definition clearLinkCache (api : TorBoxAPI) : TorBoxAPI :=
  {| linkCache := ∅; requested := requested api |}.

(* ===================================================================== *)
(** * The condition list of the rule builder screen *)
(* ===================================================================== *)

(** [addCondition]: [[...prev, { field: 'progress', operator: 'equals', value: '' }]] *)
Definition addCondition (prev : list TorBoxRuleCondition) : list TorBoxRuleCondition :=
  prev ++ [cond f_progress equals ""].

(** [prev.filter((_, i) => i !== idx)], counting from [i]. *)
Fixpoint filter_other_index (i idx : nat) (l : list TorBoxRuleCondition)
  : list TorBoxRuleCondition :=
  match l with
  | [] => []
  | c :: r =>
      if Nat.eqb i idx then filter_other_index (S i) idx r
      else c :: filter_other_index (S i) idx r
  end.

(** [removeCondition]. *)
Definition removeCondition (idx : nat) (prev : list TorBoxRuleCondition)
  : list TorBoxRuleCondition :=
  filter_other_index 0 idx prev.

(** What one firing of the interval has done, in terms of where it began. *)
Definition tick_invariant (w : World) (acc : World * list Run) : Prop :=
  NoDup (map run_ruleId acc.2) /\
  (forall id, id ∈ w_runLock acc.1 <-> id ∈ w_runLock w \/ id ∈ map run_ruleId acc.2) /\
  (forall run, run ∈ acc.2 -> run_ruleId run ∉ w_runLock w) /\
  count_fetches (w_trace acc.1) = (count_fetches (w_trace w) + length acc.2)%nat /\
  count_executions (w_trace acc.1) = count_executions (w_trace w).

(** The control call of a download kind: [controlTorrent], [controlUsenet]
    or [controlWebDownload]. *)
Definition control_call (source : AutomationSource) (sourceId : number) (op : ControlOp)
  : ApiCall :=
  match source with
  | torrent => controlTorrent sourceId op
  | usenet => controlUsenet sourceId op
  | web => controlWebDownload sourceId op
  end.

(** The one call that stands for a target under the three actions that
    apply to every kind of download. *)
Definition bulk_call (action : TorBoxRuleAction) (target : Target.t) : option ApiCall :=
  match action with
  | pause_download =>
      Some (control_call (Target.source target) (Target.sourceId target) op_pause)
  | resume_download =>
      Some (control_call (Target.source target) (Target.sourceId target) op_resume)
  | delete_download => Some (deleteItem (Target.source target) (Target.sourceId target))
  | _ => None
  end.

(** How an operation of the hook may leave the rule list and its saved
    copy: both untouched, or the list replaced and written out (the write
    taking effect only when the storage accepts it). *)
Definition persisted_step (env : Env) (w w' : World) : Prop :=
  (w_rules w' = w_rules w /\ w_saved w' = w_saved w) \/
  w_saved w' = (if rules_write_ok env then w_rules w' else w_saved w).

(* ===================================================================== *)
(** * More concrete values for the examples *)
(* ===================================================================== *)

Module Fixture.

Definition torrent_item (id : Z) (updated_at : Z) : TorBoxItem.t :=
  {| TorBoxItem.id := Finite (inject_Z id); TorBoxItem.name := "debian.iso";
     TorBoxItem.size := Finite 4096; TorBoxItem.created_at := Finite 1700000000000;
     TorBoxItem.updated_at := Finite (inject_Z updated_at);
     TorBoxItem.download_state := "downloading"; TorBoxItem.peers := Some (Finite 4);
     TorBoxItem.ratio := None; TorBoxItem.progress := Finite (1 # 2);
     TorBoxItem.download_speed := Finite 1000; TorBoxItem.eta := Finite 60;
     TorBoxItem.files := Some [Finite 7]; TorBoxItem.availability := None;
     TorBoxItem.tracker := Some "udp://tracker.example" |}.

Definition usenet_item (id : Z) (updated_at : Z) : TorBoxUsenetItem.t :=
  {| TorBoxUsenetItem.id := Finite (inject_Z id); TorBoxUsenetItem.name := "post.nzb";
     TorBoxUsenetItem.size := Finite 2048; TorBoxUsenetItem.created_at := Finite 1700000000000;
     TorBoxUsenetItem.updated_at := Finite (inject_Z updated_at);
     TorBoxUsenetItem.download_state := "paused"; TorBoxUsenetItem.progress := Finite 0;
     TorBoxUsenetItem.download_speed := Finite 0; TorBoxUsenetItem.eta := Finite 0;
     TorBoxUsenetItem.files := None |}.

Definition web_item (id : Z) (webdownload_id : option number) : TorBoxWebItem.t :=
  {| TorBoxWebItem.id := Finite (inject_Z id); TorBoxWebItem.webdownload_id := webdownload_id;
     TorBoxWebItem.web_id := None; TorBoxWebItem.name := "file.zip";
     TorBoxWebItem.size := Finite 512; TorBoxWebItem.created_at := Finite 1700000000000;
     TorBoxWebItem.updated_at := Finite 1700000000000;
     TorBoxWebItem.download_state := "completed"; TorBoxWebItem.progress := Finite 1;
     TorBoxWebItem.download_speed := Finite 0; TorBoxWebItem.eta := Finite 0;
     TorBoxWebItem.files := Some [] |}.

Definition ran_rule (id : string) (action : TorBoxRuleAction) (scope : option TorBoxRuleScope)
    (enabled : bool) (dangerous : option bool) (lastRunAt : option Z) : Rule.t :=
  {| Rule.id := id; Rule.name := "Nightly"; Rule.enabled := enabled;
     Rule.checkIntervalMinutes := 10; Rule.conditions := [];
     Rule.action := action; Rule.actionValue := None; Rule.scope := scope;
     Rule.isDangerous := dangerous; Rule.isCustom := Some true;
     Rule.lastRunAt := lastRunAt; Rule.lastResult := None;
     Rule.runCount := 3; Rule.createdAt := 0 |}.

Definition stale_rule : StoredRule.t :=
  {| StoredRule.id := "rule_old"; StoredRule.name := "Move to folder";
     StoredRule.enabled := true; StoredRule.checkIntervalMinutes := 10;
     StoredRule.conditions := []; StoredRule.action := "move_download";
     StoredRule.actionValue := Some "/archive"; StoredRule.scope := None;
     StoredRule.isDangerous := None; StoredRule.isCustom := Some true;
     StoredRule.lastRunAt := None; StoredRule.lastResult := None;
     StoredRule.runCount := 0; StoredRule.createdAt := 0 |}.

Definition empty_api : TorBoxAPI := {| linkCache := ∅; requested := [] |}.

End Fixture.

(* ===================================================================== *)
(** * The runtime model on known values *)
(* ===================================================================== *)

Example Number_of_string_examples :
  Number_of_string "100" = Finite 100 /\
  Number_of_string " 12.5 " = Finite (25 # 2) /\
  Number_of_string "" = Finite 0 /\
  Number_of_string "1e3" = Finite 1000 /\
  Number_of_string "0x1F" = Finite 31 /\
  Number_of_string "paused" = NaN /\
  Number_of_string "12px" = NaN /\
  Number_of_string "-Infinity" = Infinity true /\
  Number_of_string "infinity" = NaN /\
  Number_of_string "1e309" = Infinity false.
Proof. vm_compute. repeat split. Qed.

Example String_of_number_examples :
  String_of_number (Number_of_string "0.4") = "0.4" /\
  String_of_number (Finite 100) = "100" /\
  String_of_number (Number_of_string "1e21") = "1e+21" /\
  String_of_number (Number_of_string "0.0000001") = "1e-7" /\
  String_of_number (Number_of_string "-123.456") = "-123.456" /\
  String_of_number (num_sub (Number_of_string "0.3") (Number_of_string "0.1"))
    = "0.19999999999999998".
Proof. vm_compute. repeat split. Qed.

Example string_examples :
  trim "  a b  " = "a b" /\ toLowerCase "Stalled (No Seeds)" = "stalled (no seeds)" /\
  includes "downloading" "load" = true /\ includes "abc" "" = true /\
  includes "ab" "abc" = false.
Proof. vm_compute. repeat split. Qed.

(* ===================================================================== *)
(** * Predicate evaluator *)
(* ===================================================================== *)

Lemma trim_start_blank (l : list Ascii.ascii) :
  forallb is_whitespace l = true -> trim_start l = [].
Proof.
  induction l as [|c l IH]; simpl; [done|].
  intros [Hc Hl]%andb_prop. rewrite Hc. by apply IH.
Qed.

Lemma trim_blank (s : string) : blank s = true -> trim s = "".
Proof.
  unfold blank, trim. intros H.
  by rewrite (trim_start_blank _ H).
Qed.

Lemma condition_holds_blank now target c :
  blank (value c) = true -> condition_holds now target c = true.
Proof.
  intros H. unfold condition_holds. by rewrite (trim_blank _ H).
Qed.

(** C8: a rule with no conditions and scope 'all' matches every target, and
    a condition whose value is empty or white space only holds for every
    target, so that it can be dropped from a rule without changing what the
    rule matches. *)
Theorem C8_empty_and_blank_conditions_match now rule target :
  (Rule.conditions rule = [] -> Rule.scope rule = Some scope_all ->
   matchesRule now rule target = true) /\
  (forall c, blank (value c) = true -> condition_holds now target c = true) /\
  (forall pre c post, blank (value c) = true ->
   matchesRule now (set_conditions (pre ++ c :: post) rule) target
   = matchesRule now (set_conditions (pre ++ post) rule) target).
Proof.
  split; [|split].
  - intros Hc Hs. unfold matchesRule. by rewrite Hs, Hc.
  - intros c. apply condition_holds_blank.
  - intros pre c post Hb. unfold matchesRule; simpl.
    rewrite !forallb_app; simpl. rewrite (condition_holds_blank _ _ _ Hb).
    reflexivity.
Qed.

Lemma C8_witness :
  matchesRule 1700000600000 (Sample.pause_all true) Sample.partial_item = true /\
  condition_holds 1700000600000 Sample.done_item (cond f_status equals "  ") = true.
Proof.
  pose proof (C8_empty_and_blank_conditions_match 1700000600000
                (Sample.pause_all true) Sample.partial_item) as (H1 & _ & _).
  pose proof (C8_empty_and_blank_conditions_match 1700000600000
                (Sample.pause_all true) Sample.done_item) as (_ & H2 & _).
  split.
  - apply H1; reflexivity.
  - apply H2; reflexivity.
Defined.

(** What [compareValues] does, by the numeric status of its two sides. *)
Lemma compareValues_numeric left rightRaw operator :
  isFinite (Number_of_string rightRaw) = true ->
  isFinite (ToNumber left) = true ->
  compareValues left rightRaw operator
  = numeric_compare operator (ToNumber left) (Number_of_string rightRaw).
Proof.
  intros Hr Hl. unfold compareValues.
  replace (match left with VNum n => n | VStr s => Number_of_string s end)
    with (ToNumber left) by (by destruct left).
  rewrite Hr, Hl. simpl. by destruct operator.
Qed.

Lemma compareValues_text_value left rightRaw operator :
  isFinite (Number_of_string rightRaw) = false ->
  compareValues left rightRaw operator
  = match operator with
    | equals | not_equals | contains =>
        string_compare operator (toLowerCase (ToString left)) (toLowerCase rightRaw)
    | _ =>
        numeric_compare operator (Number_of_string (toLowerCase (ToString left)))
                        (Number_of_string (toLowerCase rightRaw))
    end.
Proof.
  intros Hr. unfold compareValues. rewrite Hr. simpl.
  rewrite andb_false_r. by destruct operator.
Qed.

Lemma compareValues_text_field left rightRaw operator :
  isFinite (Number_of_string rightRaw) = true ->
  isFinite (ToNumber left) = false ->
  compareValues left rightRaw operator
  = match operator with
    | equals => false
    | not_equals => true
    | contains =>
        includes (toLowerCase (ToString left)) (String_of_number (Number_of_string rightRaw))
    | _ =>
        numeric_compare operator (Number_of_string (toLowerCase (ToString left)))
                        (Number_of_string rightRaw)
    end.
Proof.
  intros Hr Hl. unfold compareValues.
  replace (match left with VNum n => n | VStr s => Number_of_string s end)
    with (ToNumber left) by (by destruct left).
  rewrite Hr, Hl. simpl. by destruct operator.
Qed.

(** C4, as the specification words it, fails on an ordering operator: for
    the status "Stalled" and the value "downloading" neither side is
    numeric, the lower-cased strings compare as "stalled" > "downloading", and
    [compareValues] answers false. *)
Lemma C4_counterexample :
  isFinite (Number_of_string "downloading") = false /\
  compareValues_spec (VStr "Stalled") "downloading" greater_than = true /\
  compareValues (VStr "Stalled") "downloading" greater_than = false.
Proof. vm_compute. repeat split. Qed.

(** C4, amended: the condition's value is taken as a number exactly when
    [Number.isFinite] accepts its parse.  When both sides are numeric the
    comparison is numeric.  When the value is not numeric, [equals],
    [not_equals] and [contains] compare the two sides as lower-cased strings,
    while the four ordering operators convert both lower-cased strings back
    to numbers and compare those.  When the value is numeric and the field is
    not, [equals] is false, [not_equals] is true, [contains] looks for the
    printed number in the lower-cased field, and the ordering operators
    compare the re-parsed field with the number. *)
Theorem C4_compareValues_by_cases left rightRaw operator :
  (isFinite (Number_of_string rightRaw) = true ->
   isFinite (ToNumber left) = true ->
   compareValues left rightRaw operator
   = numeric_compare operator (ToNumber left) (Number_of_string rightRaw)) /\
  (isFinite (Number_of_string rightRaw) = false ->
   compareValues left rightRaw operator
   = match operator with
     | equals | not_equals | contains =>
         string_compare operator (toLowerCase (ToString left)) (toLowerCase rightRaw)
     | _ =>
         numeric_compare operator (Number_of_string (toLowerCase (ToString left)))
                         (Number_of_string (toLowerCase rightRaw))
     end) /\
  (isFinite (Number_of_string rightRaw) = true ->
   isFinite (ToNumber left) = false ->
   compareValues left rightRaw operator
   = match operator with
     | equals => false
     | not_equals => true
     | contains =>
         includes (toLowerCase (ToString left))
                  (String_of_number (Number_of_string rightRaw))
     | _ =>
         numeric_compare operator (Number_of_string (toLowerCase (ToString left)))
                         (Number_of_string rightRaw)
     end).
Proof.
  split; [|split].
  - apply compareValues_numeric.
  - apply compareValues_text_value.
  - apply compareValues_text_field.
Qed.

Lemma C4_witness :
  compareValues (VNum (Finite (1 # 2))) "0.5" equals = true /\
  compareValues (VStr "Paused") "PAUSED" equals = true /\
  compareValues (VStr "Downloading") "10" less_than = false.
Proof.
  split; [|split].
  - destruct (C4_compareValues_by_cases (VNum (Finite (1 # 2))) "0.5" equals) as (H & _ & _).
    rewrite H; reflexivity.
  - destruct (C4_compareValues_by_cases (VStr "Paused") "PAUSED" equals) as (_ & H & _).
    rewrite H; reflexivity.
  - destruct (C4_compareValues_by_cases (VStr "Downloading") "10" less_than) as (_ & _ & H).
    rewrite H; reflexivity.
Defined.

(** No progress fraction between 0 and 1 equals the value "100". *)
Lemma progress_fraction_never_equals_100 (q : Q) :
  (q <= 1)%Q -> compareValues (VNum (Finite q)) "100" equals = false.
Proof.
  intros Hq.
  rewrite compareValues_numeric by reflexivity.
  change (Number_of_string "100") with (Finite 100). simpl.
  destruct (Qeq_bool q 100) eqn:E; [|done].
  apply Qeq_bool_iff in E. rewrite E in Hq. by apply Qle_bool_iff in Hq.
Qed.

(** C2: Scenario A on the code.  The rule "progress equals 100" matches
    neither the finished item (progress 1.0) nor the item at 0.4; the run
    appends no notification and records "No matching downloads found.". *)
Theorem C2_scenario_A_matches_nothing :
  let items := [Sample.done_item; Sample.partial_item] in
  let env := Sample.surroundings (Returned items) Sample.api_ok in
  let w' := runRule env [Sample.scenario_A_rule] "rule_a" poll false
                    (Sample.world [Sample.scenario_A_rule]) in
  map (matchesRule (now env) Sample.scenario_A_rule) items = [false; false] /\
  w_notifications w' = [] /\
  Rule.lastResult <$> find_rule (w_rules w') "rule_a"
  = Some (Some "Scheduled run: No matching downloads found.").
Proof. vm_compute. repeat split. Qed.

(* ===================================================================== *)
(** * Rule store *)
(* ===================================================================== *)

Lemma createRuleFromPreset_disabled now p :
  Rule.enabled (createRuleFromPreset now p) = false.
Proof. reflexivity. Qed.

(** Whatever id is asked for, a rule that [addRuleFromPreset] hands back is
    disabled and is the one rule added to the list. *)
Lemma addRuleFromPreset_result env rules presetId w w' r :
  addRuleFromPreset env rules presetId w = (w', Returned (Some r)) ->
  Rule.enabled r = false /\ w_rules w' = rules ++ [r].
Proof.
  unfold addRuleFromPreset.
  destruct (List.find _ TORBOX_RULE_PRESETS) as [p|]; [|by intros [= _ ?]].
  unfold bind, emit, persistRules, ret.
  case_bool_decide; destruct (confirm env), (rules_write_ok env); simpl;
    intros [= <- <-]; done.
Qed.

(** C9: for every preset of the table, the rule made from it is disabled:
    [addRuleFromPreset] finds the preset by its id and either appends that
    disabled rule to the list and returns it, or, for a dangerous preset
    whose confirmation is declined, returns null and leaves the list as it
    was. *)
Theorem C9_presets_never_auto_enable env rules p w :
  p ∈ TORBOX_RULE_PRESETS ->
  Rule.enabled (createRuleFromPreset (now env) p) = false /\
  ((exists w' r, addRuleFromPreset env rules (Preset.id p) w = (w', Returned (Some r)) /\
                 r = createRuleFromPreset (now env) p /\
                 Rule.enabled r = false /\ w_rules w' = rules ++ [r]) \/
   (exists w', addRuleFromPreset env rules (Preset.id p) w = (w', Returned None) /\
               Preset.isDangerous p = Some true /\ confirm env = false /\
               w_rules w' = w_rules w)).
Proof.
  intros Hp. split; [reflexivity|].
  unfold TORBOX_RULE_PRESETS in Hp.
  repeat (apply elem_of_cons in Hp as [-> | Hp]);
    try (by apply elem_of_nil in Hp);
    try (left; unfold addRuleFromPreset, bind, persistRules, ret; simpl;
         destruct (rules_write_ok env); eexists _, _; split; [reflexivity|done]).
  all: unfold addRuleFromPreset, bind, emit, persistRules, ret; simpl;
       destruct (confirm env) eqn:Hc, (rules_write_ok env); simpl;
       first [ left; eexists _, _; split; [reflexivity|done]
             | right; eexists; split; [reflexivity|done] ].
Qed.

Lemma C9_witness :
  let env := Sample.surroundings (Returned []) Sample.api_ok in
  exists w' r,
    addRuleFromPreset env [] "completed_notify" (Sample.world []) = (w', Returned (Some r)) /\
    Rule.enabled r = false /\ w_rules w' = [r].
Proof.
  intros env.
  destruct (C9_presets_never_auto_enable env []
              (preset "completed_notify" "Notify on completion"
                 "Creates a local notification when an item reaches 100%." 5
                 [cond f_progress equals "100"] notify_user None None "completion")
              (Sample.world []))
    as [_ [(w' & r & Hadd & _ & He & Hr) | (w' & _ & Hd & _)]].
  - unfold TORBOX_RULE_PRESETS. do 3 apply list_elem_of_further. apply list_elem_of_here.
  - exists w', r. split; [exact Hadd|]. split; [exact He|exact Hr].
  - discriminate Hd.
Defined.

Lemma reannounce_needs_torrent scope :
  scope <> scope_torrent -> isActionSupportedForScope reannounce_torrent scope = false.
Proof. by destruct scope. Qed.

(** C6: creating a custom rule with action 'reannounce_torrent' and a scope
    other than 'torrent' (an absent scope counts as 'all') throws the
    validation error and changes nothing; an update whose result would be such
    a rule is not applied: the rule list and the saved copy stay as they
    were. *)
Theorem C6_illegal_scope_rejected env rules w :
  (forall params,
     p_action params = reannounce_torrent ->
     p_scope params <> Some scope_torrent ->
     createCustomRule env rules params w
     = (w, Threw (ErrorObject "This action is not supported for the selected scope."))) /\
  (forall ruleId updates existing,
     find_rule rules ruleId = Some existing ->
     Rule.action (apply_updates updates existing) = reannounce_torrent ->
     Rule.scope (apply_updates updates existing) <> Some scope_torrent ->
     exists w',
       updateRule env rules ruleId updates w = (w', Returned tt) /\
       w_rules w' = w_rules w /\ w_saved w' = w_saved w).
Proof.
  split.
  - intros params Ha Hs. unfold createCustomRule. rewrite Ha. simpl.
    rewrite reannounce_needs_torrent; [done|].
    destruct (p_scope params) as [[]|]; simpl; congruence.
  - intros ruleId updates existing Hf Ha Hs. unfold updateRule. rewrite Hf.
    simpl in Ha, Hs. rewrite Ha.
    rewrite reannounce_needs_torrent.
    + simpl. eexists. split; [reflexivity|done].
    + destruct (u_scope updates) as [s|]; [congruence|].
      destruct (Rule.scope existing) as [[]|]; simpl; congruence.
Qed.

Lemma C6_witness :
  let env := Sample.surroundings (Returned []) Sample.api_ok in
  let stored := Sample.rule "rule_r" reannounce_torrent (Some scope_torrent) [] false in
  let w := Sample.world [stored] in
  createCustomRule env [stored]
    {| p_name := "Reannounce web"; p_checkIntervalMinutes := 15; p_conditions := [];
       p_action := reannounce_torrent; p_actionValue := None; p_scope := Some scope_web |} w
  = (w, Threw (ErrorObject "This action is not supported for the selected scope.")) /\
  exists w',
    updateRule env [stored] "rule_r"
      {| u_name := None; u_checkIntervalMinutes := None; u_conditions := None;
         u_action := None; u_actionValue := None; u_scope := Some scope_usenet |} w
    = (w', Returned tt) /\ w_rules w' = [stored] /\ w_saved w' = [stored].
Proof.
  intros env stored w.
  destruct (C6_illegal_scope_rejected env [stored] w) as [Hcreate Hupdate].
  split.
  - apply Hcreate; [reflexivity|discriminate].
  - apply (Hupdate "rule_r" _ stored); [reflexivity|reflexivity|discriminate].
Defined.

(* ===================================================================== *)
(** * Action executor *)
(* ===================================================================== *)

Lemma bind_cong {A B} (m m' : M A) (k : A -> M B) w :
  m w = m' w -> bind m k w = bind m' k w.
Proof. unfold bind. by intros ->. Qed.

Lemma api_call_effect env c w w' o :
  api_call env c w = (w', o) -> w' = log (EvApi c) w.
Proof. unfold api_call. destruct (api env c); by intros [= <- _]. Qed.

(** [only_calls w w']: from [w] to [w'] nothing changed but the trace, and
    the trace grew by API calls only. *)
Definition only_calls (w w' : World) : Prop :=
  w_rules w' = w_rules w /\ w_saved w' = w_saved w /\ w_runLock w' = w_runLock w /\
  w_notifications w' = w_notifications w /\
  exists calls, w_trace w' = w_trace w ++ map EvApi calls.

Lemma only_calls_refl w : only_calls w w.
Proof. repeat split. exists []. simpl. by rewrite app_nil_r. Qed.

Lemma only_calls_trans w1 w2 w3 :
  only_calls w1 w2 -> only_calls w2 w3 -> only_calls w1 w3.
Proof.
  intros (? & ? & ? & ? & c1 & Ht1) (? & ? & ? & ? & c2 & Ht2).
  repeat split; try congruence.
  exists (c1 ++ c2). rewrite Ht2, Ht1, map_app. by rewrite app_assoc.
Qed.

Lemma only_calls_log c w : only_calls w (log (EvApi c) w).
Proof. repeat split. by exists [c]. Qed.

Ltac only_calls :=
  repeat first [ apply only_calls_refl
               | eapply only_calls_trans; [|apply only_calls_log] ].

(** One target changes nothing but the trace, to which it adds API calls
    only. *)
Lemma applyAction_effect env rule target w w' o :
  applyAction env rule target w = (w', o) -> only_calls w w'.
Proof.
  unfold applyAction, when, is_source, bind, ret.
  destruct (Rule.action rule);
    repeat match goal with
      | |- context [bool_decide ?P] => destruct (bool_decide P) eqn:?
      | |- context [head ?l] => destruct (head l) eqn:?
      | |- context [truthy_number ?n] => destruct (truthy_number n) eqn:?
      | |- context [api_call env ?c ?v] =>
          let E := fresh "E" in
          destruct (api_call env c v) as [? []] eqn:E; apply api_call_effect in E; subst
      end;
    intros [= <- <-]; only_calls.
Qed.

Lemma forTargets_effect env rule targets : forall n w w' o,
  forTargets env rule targets n w = (w', o) -> only_calls w w'.
Proof.
  induction targets as [|t ts IH]; intros n w w' o; simpl.
  - intros [= <- _]. apply only_calls_refl.
  - unfold bind. destruct (applyAction env rule t w) as [w1 [b|e]] eqn:E.
    + intros H. apply applyAction_effect in E. apply IH in H.
      by eapply only_calls_trans.
    + intros [= <- _]. by apply applyAction_effect in E.
Qed.

(** The loop stops at the first target whose API call rejects. *)
Lemma forTargets_app env rule pre : forall post n w,
  forTargets env rule (pre ++ post) n w
  = match forTargets env rule pre n w with
    | (w1, Returned n1) => forTargets env rule post n1 w1
    | (w1, Threw e) => (w1, Threw e)
    end.
Proof.
  induction pre as [|t pre IH]; intros post n w; simpl; [done|].
  unfold bind. destruct (applyAction env rule t w) as [w1 [b|e]]; [|done].
  apply IH.
Qed.


Lemma executeAction_nonempty env rule targets w :
  targets <> [] ->
  executeAction env rule targets w
  = (let* affected := forTargets env rule targets 0%nat in
     when (Nat.ltb 0 affected)
          (let* _ := appendAppNotification env "Automation ran"
                       (Rule.name rule +:+ " processed " +:+ digits_of_Z (Z.of_nat affected)
                        +:+ " item" +:+ plural affected +:+ ".") in
           ret tt) ;;;
     ret (if Nat.ltb 0 affected
          then "Processed " +:+ digits_of_Z (Z.of_nat affected) +:+ " item"
               +:+ plural affected +:+ "."
          else "No supported items matched this action.")) w.
Proof. by destruct targets. Qed.




Lemma truthy_zero q : (q == 0)%Q -> truthy_number (Finite q) = false.
Proof. intros H. simpl. apply Qeq_bool_iff in H. by rewrite H. Qed.

(** C10: for 'request_download_link' and 'create_stream', a target whose
    first file id is the number 0 is skipped just as one without file ids:
    its step makes no call and does not count it, and in any batch it can
    be swapped for the same target without file ids. *)
Theorem C10_file_id_zero_counts_as_missing env rule target q rest :
  Rule.action rule = request_download_link \/ Rule.action rule = create_stream ->
  Target.fileIds target = Finite q :: rest ->
  (q == 0)%Q ->
  (forall w, applyAction env rule target w = (w, Returned false)) /\
  (forall w, applyAction env rule (set_fileIds [] target) w = (w, Returned false)) /\
  (forall pre post w,
     executeAction env rule (pre ++ target :: post) w
     = executeAction env rule (pre ++ set_fileIds [] target :: post) w).
Proof.
  intros Ha Hids Hq.
  assert (H1 : forall w, applyAction env rule target w = (w, Returned false)).
  { intros w. unfold applyAction.
    destruct Ha as [-> | ->]; rewrite Hids;
      change (head (Finite q :: rest)) with (Some (Finite q));
      cbv beta iota; by rewrite (truthy_zero _ Hq). }
  assert (H2 : forall w, applyAction env rule (set_fileIds [] target) w = (w, Returned false)).
  { intros w. unfold applyAction. by destruct Ha as [-> | ->]. }
  split; [exact H1|]. split; [exact H2|].
  intros pre post w.
  rewrite !executeAction_nonempty by (by destruct pre).
  apply bind_cong. rewrite !forTargets_app.
  destruct (forTargets env rule pre 0%nat w) as [w1 [n1|e]]; [|done].
  simpl. apply bind_cong. by rewrite H1, H2.
Qed.

Lemma C10_witness :
  let env := Sample.surroundings (Returned []) Sample.api_ok in
  applyAction env Sample.link_all Sample.partial_item (Sample.world [])
  = (Sample.world [], Returned false) /\
  executeAction env Sample.link_all [Sample.partial_item] (Sample.world [])
  = (Sample.world [], Returned "No supported items matched this action.").
Proof.
  intros env.
  destruct (C10_file_id_zero_counts_as_missing env Sample.link_all Sample.partial_item
              0%Q [Finite 22]) as (H1 & _ & H3);
    [by left|reflexivity|reflexivity|].
  split; [apply H1|].
  rewrite (H3 [] []). reflexivity.
Defined.

(** [executeAction] leaves the rule list and the run-lock alone and adds
    API calls only to the trace. *)
Lemma executeAction_effect env rule targets w w' o :
  executeAction env rule targets w = (w', o) ->
  w_rules w' = w_rules w /\ w_saved w' = w_saved w /\ w_runLock w' = w_runLock w /\
  exists calls, w_trace w' = w_trace w ++ map EvApi calls.
Proof.
  destruct targets as [|t ts].
  - intros [= <- _]. repeat split. exists []. simpl. by rewrite app_nil_r.
  - rewrite executeAction_nonempty by done.
    unfold bind at 1.
    destruct (forTargets env rule (t :: ts) 0%nat w) as [w1 [n|e]] eqn:E;
      apply forTargets_effect in E; destruct E as (? & ? & ? & ? & calls & ?).
    + unfold bind, when, appendAppNotification, ret.
      destruct (Nat.ltb 0 n), (notify_write env); intros [= <- _]; simpl; eauto 10.
    + intros [= <- _]. eauto 10.
Qed.

(* ===================================================================== *)
(** * Scheduler *)
(* ===================================================================== *)

Lemma count_executions_app tr1 tr2 :
  count_executions (tr1 ++ tr2) = (count_executions tr1 + count_executions tr2)%nat.
Proof. unfold count_executions. by rewrite List.filter_app, length_app. Qed.

Lemma count_fetches_app tr1 tr2 :
  count_fetches (tr1 ++ tr2) = (count_fetches tr1 + count_fetches tr2)%nat.
Proof. unfold count_fetches. by rewrite List.filter_app, length_app. Qed.

Lemma count_api_calls_app tr1 tr2 :
  count_api_calls (tr1 ++ tr2) = (count_api_calls tr1 + count_api_calls tr2)%nat.
Proof. unfold count_api_calls. by rewrite List.filter_app, length_app. Qed.

Lemma count_executions_calls calls : count_executions (map EvApi calls) = 0%nat.
Proof. by induction calls. Qed.

Lemma count_fetches_calls calls : count_fetches (map EvApi calls) = 0%nat.
Proof. by induction calls. Qed.

Lemma find_rule_id rules ruleId rule :
  find_rule rules ruleId = Some rule -> Rule.id rule = ruleId.
Proof.
  unfold find_rule. intros H. apply List.find_some in H as [_ H].
  by apply String.eqb_eq in H.
Qed.

Lemma find_rule_map_rule rules ruleId f :
  (forall r, Rule.id (f r) = Rule.id r) ->
  find_rule (map_rule rules ruleId f) ruleId = f <$> find_rule rules ruleId.
Proof.
  intros Hf. unfold find_rule, map_rule.
  induction rules as [|r rs IH]; simpl; [done|].
  destruct (String.eqb (Rule.id r) ruleId) eqn:E.
  - by rewrite Hf, E.
  - by rewrite E.
Qed.

(** While the id is in the run-lock set, a trigger returns at once. *)
Lemma runRule_start_locked env rules ruleId trigger allowDisabled w :
  ruleId ∈ w_runLock w ->
  runRule_start env rules ruleId trigger allowDisabled w = (w, None).
Proof. intros H. unfold runRule_start. by rewrite bool_decide_eq_true_2. Qed.

(** What a trigger that gets through has done: taken the lock and started
    the snapshot fetch, for the rule the list holds under that id. *)
Lemma runRule_start_acquired env rules ruleId trigger allowDisabled w w1 run :
  runRule_start env rules ruleId trigger allowDisabled w = (w1, Some run) ->
  w1 = log EvFetchTargets (set_runLock ({[ruleId]} ∪ w_runLock w) w) /\
  run_ruleId run = ruleId /\ run_trigger run = trigger /\
  find_rule rules ruleId = Some (run_rule run) /\
  (ruleId ∉ w_runLock w) /\
  (Rule.enabled (run_rule run) = true \/ allowDisabled = true).
Proof.
  unfold runRule_start. case_bool_decide as Hl; [done|].
  destruct (find_rule rules ruleId) as [rule|] eqn:Hf; [|done].
  destruct (Rule.enabled rule) eqn:He, allowDisabled; simpl; try done;
    destruct (isActionSupportedForScope _ _); simpl; try done;
    intros [= <- <-]; simpl; eauto 10.
Qed.

(** The trace of a run from the arrival of its snapshot on: the entry of
    [executeAction] when the snapshot arrived, API calls, and at most one
    alert. *)
Lemma runRule_finish_trace env rules run w :
  exists calls alerts,
    w_trace (runRule_finish env rules run w).1
    = w_trace w
      ++ (match snapshot env with
          | Returned _ => [EvExecuteAction (Rule.id (run_rule run))]
          | Threw _ => []
          end)
      ++ map EvApi calls ++ alerts /\
    (alerts = [] \/ exists title message, alerts = [EvAlert title message]) /\
    (forall e, snapshot env = Threw e -> calls = []).
Proof.
  unfold runRule_finish, finally, try_catch, runRule_try, runRule_catch.
  unfold bind at 1. destruct (snapshot env) as [items|e] eqn:Hs.
  - unfold bind at 1. unfold emit at 1. unfold bind at 1.
    destruct (executeAction env (run_rule run) _ _) as [w1 [summary|e]] eqn:E;
      apply executeAction_effect in E; destruct E as (_ & _ & _ & calls & Ht);
      exists calls;
      unfold bind, persistRules, when, emit, ret;
      (destruct (is_manual (run_trigger run)); [eexists [_]|exists []]);
      destruct (rules_write_ok env); simpl;
      rewrite Ht; simpl; rewrite <- ?app_assoc, ?app_nil_r; simpl;
      (split; [reflexivity|]); (split; [|done]); eauto.
  - exists []. unfold bind, persistRules, when, emit, ret.
    (destruct (is_manual (run_trigger run)); [eexists [_]|exists []]);
      destruct (rules_write_ok env); simpl; rewrite ?app_nil_r;
      (split; [reflexivity|]); (split; [|done]); eauto.
Qed.

Lemma runRule_finish_unlocks env rules run w :
  run_ruleId run ∉ w_runLock (runRule_finish env rules run w).1.
Proof.
  unfold runRule_finish, finally.
  destruct (try_catch _ _ w) as [w' o]. simpl.
  intros [_ Hout]%elem_of_difference. by apply Hout, elem_of_singleton.
Qed.

(** What a run leaves behind, from the arrival of its snapshot on.  When the
    snapshot arrived it is the world [executeAction] leaves, called once on
    the targets the rule matches, with at most the alert of a manual run
    after it; when the fetch failed nothing was called. *)
Lemma runRule_finish_executes_once env rules run w :
  let rule := run_rule run in
  let w2 := (runRule_finish env rules run w).1 in
  match snapshot env with
  | Returned items =>
      let ex := executeAction env rule
                  (List.filter (fun item => matchesRule (now env) rule item) items)
                  (log (EvExecuteAction (Rule.id rule)) w) in
      w_notifications w2 = w_notifications ex.1 /\
      exists alerts,
        w_trace w2 = w_trace ex.1 ++ alerts /\
        (alerts = [] \/ exists title message, alerts = [EvAlert title message]) /\
        (run_trigger run = poll -> alerts = [])
  | Threw _ =>
      w_notifications w2 = w_notifications w /\
      exists alerts,
        w_trace w2 = w_trace w ++ alerts /\
        (alerts = [] \/ exists title message, alerts = [EvAlert title message]) /\
        (run_trigger run = poll -> alerts = [])
  end.
Proof.
  intros rule w2. subst w2.
  destruct (runRule_finish env rules run w) as [w2 o] eqn:E. simpl. revert E.
  unfold runRule_finish, finally, try_catch, runRule_try, runRule_catch,
    bind, emit, persistRules, when, ret.
  fold rule. cbv beta.
  destruct (snapshot env) as [items|e].
  - destruct (executeAction env rule _ _) as [w1 [summary|e]];
      destruct (run_trigger run), (rules_write_ok env); simpl;
      intros [= <- _]; simpl; (split; [done|]);
      first [ exists []; rewrite app_nil_r; by eauto
            | eexists [_]; split; [reflexivity|]; split; [by eauto|done] ].
  - destruct (run_trigger run), (rules_write_ok env); simpl;
      intros [= <- _]; simpl; (split; [done|]);
      first [ exists []; rewrite app_nil_r; by eauto
            | eexists [_]; split; [reflexivity|]; split; [by eauto|done] ].
Qed.

(** C7, as stated, fails when the snapshot fetch fails: of two concurrent
    triggers the first takes the lock and fetches, the second is a no-op, and
    the run ends as "Failed: ..." without the executor being entered at
    all: the pair yields no executor invocation, not one. *)
Lemma C7_counterexample :
  let env := Sample.surroundings (Threw (ErrorObject "Network request failed"))
               Sample.api_ok in
  let rules := [Sample.pause_all true] in
  let run := {| run_ruleId := "rule_p"; run_rule := Sample.pause_all true;
                run_trigger := poll |} in
  let first := runRule_start env rules "rule_p" poll false (Sample.world rules) in
  let second := runRule_start env rules "rule_p" manual true first.1 in
  let final := (runRule_finish env rules run second.1).1 in
  first.2 = Some run /\
  second = (first.1, None) /\
  w_trace final = [EvFetchTargets] /\
  count_executions (w_trace final) = 0%nat /\
  Rule.lastResult <$> find_rule (w_rules final) "rule_p"
  = Some (Some "Failed: Network request failed").
Proof. vm_compute. repeat split. Qed.

(** C7, amended: while a rule's id is in the run-lock set, a trigger for it,
    scheduled or manual, returns without fetching targets or entering the
    executor.  When one trigger has taken the lock and a second one for the
    same id arrives before the first finished, the second changes nothing, so
    the pair fetches once and enters the executor at most once: exactly once,
    on the targets the rule matches, when the snapshot fetch succeeds (what
    the run leaves is what that one call of [executeAction] leaves, with at
    most the alert of a manual run after it), and not at all when the fetch
    fails.  When the run ends, by success or by an error, its id is out of the
    lock set again. *)
Theorem C7_run_lock_excludes_concurrent_trigger env rules ruleId w :
  ((ruleId ∈ w_runLock w) ->
   forall env' rules' trigger allowDisabled,
     runRule_start env' rules' ruleId trigger allowDisabled w = (w, None) /\
     (runNow_start env' rules' ruleId w).2 = None /\
     count_fetches (w_trace (runNow_start env' rules' ruleId w).1)
     = count_fetches (w_trace w) /\
     count_executions (w_trace (runNow_start env' rules' ruleId w).1)
     = count_executions (w_trace w) /\
     count_api_calls (w_trace (runNow_start env' rules' ruleId w).1)
     = count_api_calls (w_trace w)) /\
  (forall trigger allowDisabled w1 run,
     runRule_start env rules ruleId trigger allowDisabled w = (w1, Some run) ->
     (ruleId ∈ w_runLock w1) /\
     w_trace w1 = w_trace w ++ [EvFetchTargets] /\
     (forall env' rules' trigger' allowDisabled',
        runRule_start env' rules' ruleId trigger' allowDisabled' w1 = (w1, None)) /\
     (forall env_end,
        let w2 := (runRule_finish env_end rules run w1).1 in
        (ruleId ∉ w_runLock w2) /\
        count_fetches (w_trace w2) = S (count_fetches (w_trace w)) /\
        match snapshot env_end with
        | Returned items =>
            let ex := executeAction env_end (run_rule run)
                        (List.filter (fun item => matchesRule (now env_end) (run_rule run) item)
                                     items)
                        (log (EvExecuteAction ruleId) w1) in
            w_notifications w2 = w_notifications ex.1 /\
            (exists alerts,
               w_trace w2 = w_trace ex.1 ++ alerts /\
               (alerts = [] \/ exists title message, alerts = [EvAlert title message]) /\
               (trigger = poll -> alerts = [])) /\
            count_executions (w_trace w2) = S (count_executions (w_trace w))
        | Threw _ =>
            w_notifications w2 = w_notifications w1 /\
            (exists alerts,
               w_trace w2 = w_trace w1 ++ alerts /\
               (alerts = [] \/ exists title message, alerts = [EvAlert title message]) /\
               (trigger = poll -> alerts = [])) /\
            count_executions (w_trace w2) = count_executions (w_trace w) /\
            count_api_calls (w_trace w2) = count_api_calls (w_trace w)
        end)).
Proof.
  split.
  - intros Hl env' rules' trigger allowDisabled.
    split; [by apply runRule_start_locked|].
    unfold runNow_start.
    destruct (find_rule rules' ruleId) as [rule|]; [|done].
    destruct (Rule.lastRunAt rule) as [last|];
      [destruct (now env' - last <? 30000)|];
      rewrite ?runRule_start_locked by done; simpl;
      rewrite ?count_fetches_app, ?count_executions_app, ?count_api_calls_app;
      unfold count_fetches, count_executions, count_api_calls; simpl;
      repeat split; lia.
  - intros trigger allowDisabled w1 run Hstart.
    apply runRule_start_acquired in Hstart as (-> & Hid & Htr & Hfind & _ & _).
    pose proof (find_rule_id _ _ _ Hfind) as Hrid.
    set (w1 := log EvFetchTargets (set_runLock ({[ruleId]} ∪ w_runLock w) w)).
    assert (Hin : ruleId ∈ w_runLock w1) by (simpl; set_solver).
    split; [exact Hin|]. split; [done|]. split.
    + intros. by apply runRule_start_locked.
    + intros env_end w2. subst w2. split; [|split].
      * rewrite <- Hid. apply runRule_finish_unlocks.
      * destruct (runRule_finish_trace env_end rules run w1)
          as (calls & alerts & -> & Ha & _).
        simpl. rewrite !count_fetches_app, count_fetches_calls.
        destruct Ha as [-> | (title & message & ->)];
          destruct (snapshot env_end); simpl;
          unfold count_fetches; simpl; lia.
      * pose proof (runRule_finish_executes_once env_end rules run w1) as Hex.
        cbv zeta in Hex. rewrite Htr, Hrid in Hex.
        destruct (runRule_finish_trace env_end rules run w1)
          as (calls & alerts' & Ht & Ha' & Hcalls).
        pose proof (f_equal count_executions Ht) as Hc. simpl in Hc.
        rewrite !count_executions_app, count_executions_calls in Hc.
        destruct (snapshot env_end) as [items|e].
        -- destruct Hex as (Hn & Hal). split; [exact Hn|]. split; [exact Hal|].
           rewrite Hc.
           destruct Ha' as [-> | (title & message & ->)];
             unfold count_executions; simpl; lia.
        -- destruct Hex as (Hn & Hal). split; [exact Hn|]. split; [exact Hal|].
           split.
           ++ rewrite Hc.
              destruct Ha' as [-> | (title & message & ->)];
                unfold count_executions; simpl; lia.
           ++ rewrite Ht, (Hcalls e eq_refl). simpl.
              rewrite !count_api_calls_app.
              destruct Ha' as [-> | (title & message & ->)];
                unfold count_api_calls; simpl; lia.
Qed.

Lemma C7_witness :
  let env := Sample.surroundings (Returned [Sample.done_item]) Sample.api_ok in
  let rules := [Sample.pause_all true] in
  let first := runRule_start env rules "rule_p" poll false (Sample.world rules) in
  runRule_start env rules "rule_p" manual true first.1 = (first.1, None) /\
  w_trace (runRule env rules "rule_p" poll false (Sample.world rules))
  = [EvFetchTargets; EvExecuteAction "rule_p";
     EvApi (controlTorrent (Target.sourceId Sample.done_item) op_pause)].
Proof.
  intros env rules first.
  destruct (C7_run_lock_excludes_concurrent_trigger env rules "rule_p" (Sample.world rules))
    as [_ H].
  destruct (H poll false first.1
              {| run_ruleId := "rule_p"; run_rule := Sample.pause_all true;
                 run_trigger := poll |} eq_refl) as (_ & _ & Hsecond & Hend).
  split.
  - apply Hsecond.
  - destruct (Hend env) as (_ & _ & Hrun). simpl in Hrun.
    destruct Hrun as (_ & (alerts & Ht & _ & Hpoll) & _).
    rewrite (Hpoll eq_refl), app_nil_r in Ht. exact Ht.
Defined.

(** C5, as stated, fails on what a successful run stores: the executor's
    summary is "Processed 1 item.", the stored [lastResult] is neither that
    string nor a "Failed: " message. *)
Lemma C5_counterexample :
  let env := Sample.surroundings (Returned [Sample.done_item]) Sample.api_ok in
  let rules := [Sample.pause_all true] in
  let w' := runRule env rules "rule_p" poll false (Sample.world rules) in
  (executeAction env (Sample.pause_all true) [Sample.done_item] (Sample.world rules)).2
  = Returned "Processed 1 item." /\
  Rule.lastResult <$> find_rule (w_rules w') "rule_p"
  = Some (Some "Scheduled run: Processed 1 item.").
Proof. vm_compute. repeat split. Qed.

(** C5, amended: every run that holds the run-lock, however it ends, is
    recorded on its rule: [lastRunAt] becomes the current time, [runCount]
    grows by exactly 1 and [lastResult] becomes the executor's summary
    prefixed with "Manual run: " or "Scheduled run: " according to the
    trigger, or "Failed: <message>" when the fetch or the executor threw.
    When the snapshot fetch fails the executor is not entered and no API call
    is made. *)
Theorem C5_every_run_is_recorded env rules run w :
  let rule := run_rule run in
  let w' := (runRule_finish env rules run w).1 in
  find_rule rules (Rule.id rule) = Some rule ->
  exists lastResult rule',
    w_rules w' = map_rule rules (Rule.id rule) (record_run (now env) lastResult) /\
    find_rule (w_rules w') (Rule.id rule) = Some rule' /\
    Rule.lastRunAt rule' = Some (now env) /\
    Rule.runCount rule' = Rule.runCount rule + 1 /\
    Rule.lastResult rule' = Some lastResult /\
    match snapshot env with
    | Threw e =>
        lastResult = "Failed: " +:+ error_message e /\
        count_executions (w_trace w') = count_executions (w_trace w) /\
        count_api_calls (w_trace w') = count_api_calls (w_trace w)
    | Returned items =>
        match executeAction env rule
                (List.filter (fun item => matchesRule (now env) rule item) items)
                (log (EvExecuteAction (Rule.id rule)) w) with
        | (_, Returned summary) =>
            lastResult = trigger_label (run_trigger run) +:+ ": " +:+ summary
        | (_, Threw e) => lastResult = "Failed: " +:+ error_message e
        end
    end.
Proof.
  intros rule w' Hfind. subst w'.
  destruct (runRule_finish env rules run w) as [w' o] eqn:E. simpl.
  assert (Hshape : exists lastResult,
             w_rules w' = map_rule rules (Rule.id rule) (record_run (now env) lastResult) /\
             match snapshot env with
             | Threw e =>
                 lastResult = "Failed: " +:+ error_message e /\
                 count_executions (w_trace w') = count_executions (w_trace w) /\
                 count_api_calls (w_trace w') = count_api_calls (w_trace w)
             | Returned items =>
                 match executeAction env rule
                         (List.filter (fun item => matchesRule (now env) rule item) items)
                         (log (EvExecuteAction (Rule.id rule)) w) with
                 | (_, Returned summary) =>
                     lastResult = trigger_label (run_trigger run) +:+ ": " +:+ summary
                 | (_, Threw e) => lastResult = "Failed: " +:+ error_message e
                 end
             end).
  { revert E.
    unfold runRule_finish, finally, try_catch, runRule_try, runRule_catch,
      bind, emit, persistRules, when, ret.
    fold rule. cbv beta.
    destruct (snapshot env) as [items|e].
    - destruct (executeAction env rule _ _) as [w1 [summary|e]];
        destruct (is_manual (run_trigger run)), (rules_write_ok env);
        intros [= <- _]; eexists; (split; [reflexivity|reflexivity]).
    - destruct (is_manual (run_trigger run)), (rules_write_ok env);
        intros [= <- _]; eexists; (split; [reflexivity|]); simpl;
        rewrite ?count_executions_app, ?count_api_calls_app;
        unfold count_executions, count_api_calls; simpl; (split; [done|lia]). }
  destruct Hshape as (lastResult & Hrules & Hcase).
  exists lastResult, (record_run (now env) lastResult rule).
  rewrite Hrules, find_rule_map_rule, Hfind by done.
  repeat split; done.
Qed.

Lemma C5_witness :
  let env := Sample.surroundings (Threw (ErrorObject "Network request failed")) Sample.api_ok in
  let rules := [Sample.pause_all true] in
  let run := {| run_ruleId := "rule_p"; run_rule := Sample.pause_all true;
                run_trigger := poll |} in
  exists rule',
    find_rule (w_rules (runRule_finish env rules run (Sample.world rules)).1) "rule_p"
    = Some rule' /\
    Rule.runCount rule' = 1 /\
    Rule.lastResult rule' = Some "Failed: Network request failed".
Proof.
  intros env rules run.
  destruct (C5_every_run_is_recorded env rules run (Sample.world rules) eq_refl)
    as (lastResult & rule' & _ & Hf & _ & Hc & Hr & -> & _).
  exists rule'. split; [exact Hf|]. split; [exact Hc|exact Hr].
Defined.

Lemma runRule_start_disabled env rules ruleId rule w :
  find_rule rules ruleId = Some rule ->
  Rule.enabled rule = false ->
  runRule_start env rules ruleId poll false w = (w, None).
Proof.
  intros Hf He. unfold runRule_start. rewrite Hf, He. simpl.
  by case_bool_decide.
Qed.

(** The interval only ever starts runs of enabled rules. *)
Lemma tick_step_enabled env rules (l : list Rule.t) : forall acc,
  (forall run, run ∈ acc.2 ->
     find_rule rules (run_ruleId run) = Some (run_rule run) /\
     Rule.enabled (run_rule run) = true) ->
  forall run, run ∈ (fold_left (tick_step env rules) l acc).2 ->
    find_rule rules (run_ruleId run) = Some (run_rule run) /\
    Rule.enabled (run_rule run) = true.
Proof.
  induction l as [|r l IH]; intros acc Hacc; simpl; [exact Hacc|].
  apply IH. unfold tick_step.
  destruct (is_due env r); [|exact Hacc].
  destruct (runRule_start env rules (Rule.id r) poll false acc.1) as [w' [run'|]] eqn:E;
    simpl; [|exact Hacc].
  apply runRule_start_acquired in E as (_ & Hid & _ & Hf & _ & [He|He]); [|done].
  intros run [Hin | ->%list_elem_of_singleton]%elem_of_app.
  - by apply Hacc.
  - by rewrite Hid.
Qed.

(** C3, as stated, fails for the manual trigger: [runNow] on a disabled rule
    fetches the targets, enters the executor and pauses the download. *)
Lemma C3_counterexample :
  let env := Sample.surroundings (Returned [Sample.done_item]) Sample.api_ok in
  let rules := [Sample.pause_all false] in
  let w' := runNow env rules "rule_p" (Sample.world rules) in
  Rule.enabled <$> find_rule rules "rule_p" = Some false /\
  w_trace w'
  = [EvFetchTargets; EvExecuteAction "rule_p";
     EvApi (controlTorrent (Target.sourceId Sample.done_item) op_pause);
     EvAlert "Rule Executed" "My rule: Processed 1 item."].
Proof. vm_compute. repeat split. Qed.

(** C3, amended: a rule whose enabled flag is false is never run by a
    scheduled trigger: [runRule] with trigger 'poll' returns before fetching
    targets and changes nothing, and the interval starts no run for it.  A manual
    trigger does run it: [runNow] passes [allowDisabled] and, when the rule is
    not locked, not throttled and legal for its scope, takes the lock and
    fetches the targets. *)
Theorem C3_disabled_rule_runs_only_manually env rules ruleId rule w :
  find_rule rules ruleId = Some rule ->
  Rule.enabled rule = false ->
  runRule_start env rules ruleId poll false w = (w, None) /\
  runRule env rules ruleId poll false w = w /\
  (forall run, run ∈ (tick_start env rules w).2 -> run_ruleId run <> ruleId) /\
  ((ruleId ∉ w_runLock w) ->
   isActionSupportedForScope (Rule.action rule) (default scope_all (Rule.scope rule)) = true ->
   (forall last, Rule.lastRunAt rule = Some last -> 30000 <= now env - last) ->
   runNow_start env rules ruleId w
   = (log EvFetchTargets (set_runLock ({[ruleId]} ∪ w_runLock w) w),
      Some {| run_ruleId := ruleId; run_rule := rule; run_trigger := manual |})).
Proof.
  intros Hf He.
  pose proof (runRule_start_disabled env rules ruleId rule w Hf He) as Hstart.
  split; [exact Hstart|]. split; [|split].
  - unfold runRule. by rewrite Hstart.
  - intros run Hin Hid.
    apply (tick_step_enabled env rules rules (w, [])) in Hin as [Hf' He'].
    + rewrite Hid, Hf in Hf'. congruence.
    + intros ? Hnil. by apply elem_of_nil in Hnil.
  - intros Hl Hs Hlast. unfold runNow_start. rewrite Hf.
    assert (Hgo : runRule_start env rules ruleId manual true w
                  = (log EvFetchTargets (set_runLock ({[ruleId]} ∪ w_runLock w) w),
                     Some {| run_ruleId := ruleId; run_rule := rule;
                             run_trigger := manual |})).
    { unfold runRule_start. rewrite bool_decide_eq_false_2 by done.
      rewrite Hf, Hs, He. reflexivity. }
    destruct (Rule.lastRunAt rule) as [last|]; [|exact Hgo].
    specialize (Hlast last eq_refl).
    destruct (now env - last <? 30000) eqn:Hlt; [lia|exact Hgo].
Qed.

Lemma C3_witness :
  let env := Sample.surroundings (Returned [Sample.done_item]) Sample.api_ok in
  let rules := [Sample.pause_all false] in
  runRule env rules "rule_p" poll false (Sample.world rules) = Sample.world rules /\
  (tick_start env rules (Sample.world rules)).2 = [].
Proof.
  intros env rules.
  destruct (C3_disabled_rule_runs_only_manually env rules "rule_p" (Sample.pause_all false)
              (Sample.world rules) eq_refl eq_refl) as (_ & Hrun & _ & _).
  split; [exact Hrun|reflexivity].
Defined.

(* ===================================================================== *)
(** * Further properties: manual cooldown and the schedule *)
(* ===================================================================== *)

Lemma persistRules_effect env rs w :
  exists w',
    persistRules env rs w = (w', Returned tt) /\
    w_rules w' = rs /\ w_trace w' = w_trace w /\ w_runLock w' = w_runLock w /\
    w_notifications w' = w_notifications w /\
    w_saved w' = (if rules_write_ok env then rs else w_saved w).
Proof.
  unfold persistRules. destruct (rules_write_ok env); eexists; (split; [reflexivity|done]).
Qed.

(** X1: A manual trigger less than 30 s after the last recorded run is turned
    down: it shows the "Throttled" alert and nothing else happens, whether or
    not the rule is enabled or locked. *)
Theorem runNow_within_cooldown_is_rejected env rules ruleId rule last w :
  find_rule rules ruleId = Some rule ->
  Rule.lastRunAt rule = Some last ->
  now env - last < 30000 ->
  runNow env rules ruleId w
  = log (EvAlert "Throttled" "Please wait at least 30 seconds between manual runs.") w /\
  count_fetches (w_trace (runNow env rules ruleId w)) = count_fetches (w_trace w) /\
  count_executions (w_trace (runNow env rules ruleId w)) = count_executions (w_trace w).
Proof.
  intros Hf Hl Hlt.
  assert (H : runNow env rules ruleId w
              = log (EvAlert "Throttled"
                       "Please wait at least 30 seconds between manual runs.") w).
  { unfold runNow, runNow_start. rewrite Hf, Hl.
    destruct (now env - last <? 30000) eqn:E; [done|lia]. }
  rewrite H. simpl. rewrite count_fetches_app, count_executions_app.
  unfold count_fetches, count_executions. simpl. repeat split; lia.
Qed.

Lemma runNow_within_cooldown_witness :
  let env := Sample.surroundings (Returned [Sample.done_item]) Sample.api_ok in
  let rules := [Fixture.ran_rule "rule_n" pause_download None true None
                  (Some 1700000590000)] in
  w_trace (runNow env rules "rule_n" (Sample.world rules))
  = [EvAlert "Throttled" "Please wait at least 30 seconds between manual runs."].
Proof.
  intros env rules.
  destruct (runNow_within_cooldown_is_rejected env rules "rule_n"
              (Fixture.ran_rule "rule_n" pause_download None true None (Some 1700000590000))
              1700000590000 (Sample.world rules) eq_refl eq_refl) as (H & _ & _).
  - vm_compute. reflexivity.
  - rewrite H. reflexivity.
Defined.

Lemma is_due_recent env rule last :
  Rule.lastRunAt rule = Some last ->
  now env - last < Z.max 1 (Rule.checkIntervalMinutes rule) * 60000 ->
  is_due env rule = false.
Proof.
  intros Hl Hlt. unfold is_due. rewrite Hl. simpl.
  destruct (Rule.enabled rule); [|done]. simpl. lia.
Qed.

(** Every run the interval starts was set off by a due rule of that id in
    the list. *)
Lemma tick_step_due env rules (l : list Rule.t) : forall acc,
  (forall run, run ∈ acc.2 ->
     exists r, r ∈ l ++ rules /\ Rule.id r = run_ruleId run /\ is_due env r = true) ->
  (forall r, r ∈ l -> r ∈ rules) ->
  forall run, run ∈ (fold_left (tick_step env rules) l acc).2 ->
    exists r, r ∈ rules /\ Rule.id r = run_ruleId run /\ is_due env r = true.
Proof.
  induction l as [|r l IH]; intros acc Hacc Hsub; simpl.
  - intros run Hin. destruct (Hacc run Hin) as (r & Hr & ?). eauto.
  - apply IH.
    + unfold tick_step. destruct (is_due env r) eqn:Hd.
      * destruct (runRule_start env rules (Rule.id r) poll false acc.1)
          as [w' [run'|]] eqn:E; simpl.
        -- apply runRule_start_acquired in E as (_ & Hid & _).
           intros run [Hin | ->%list_elem_of_singleton]%elem_of_app.
           ++ destruct (Hacc run Hin) as (r0 & Hr0 & ?). exists r0. split; [|done].
              apply elem_of_app. apply elem_of_app in Hr0 as [Hr0|Hr0]; [|by right].
              apply elem_of_cons in Hr0 as [->|Hr0]; [right|left]; [|done].
              apply Hsub. by left.
           ++ exists r. split; [|by rewrite Hid].
              apply elem_of_app. right. apply Hsub. by left.
        -- intros run Hin. destruct (Hacc run Hin) as (r0 & Hr0 & ?). exists r0.
           split; [|done].
           apply elem_of_app. apply elem_of_app in Hr0 as [Hr0|Hr0]; [|by right].
           apply elem_of_cons in Hr0 as [->|Hr0]; [right|left]; [|done].
           apply Hsub. by left.
      * intros run Hin. destruct (Hacc run Hin) as (r0 & Hr0 & ?). exists r0.
        split; [|done].
        apply elem_of_app. apply elem_of_app in Hr0 as [Hr0|Hr0]; [|by right].
        apply elem_of_cons in Hr0 as [->|Hr0]; [right|left]; [|done].
        apply Hsub. by left.
    + intros r0 Hr0. apply Hsub. by right.
Qed.

(** X2: The interval starts a run only for a rule that is due: enabled and last
    run at least its check interval ago, the interval counted as one minute
    when it is set lower.  A rule whose every entry ran more recently than
    that is not started. *)
Theorem tick_starts_only_due_rules env rules w :
  (forall run, run ∈ (tick_start env rules w).2 ->
     exists r, r ∈ rules /\ Rule.id r = run_ruleId run /\ is_due env r = true) /\
  (forall ruleId,
     (forall r, r ∈ rules -> Rule.id r = ruleId ->
        exists last, Rule.lastRunAt r = Some last /\
                     now env - last < Z.max 1 (Rule.checkIntervalMinutes r) * 60000) ->
     forall run, run ∈ (tick_start env rules w).2 -> run_ruleId run <> ruleId).
Proof.
  assert (Hdue : forall run, run ∈ (tick_start env rules w).2 ->
            exists r, r ∈ rules /\ Rule.id r = run_ruleId run /\ is_due env r = true).
  { apply tick_step_due; [|done]. intros ? Hnil. by apply elem_of_nil in Hnil. }
  split; [exact Hdue|].
  intros ruleId Hrecent run Hin Hid.
  destruct (Hdue run Hin) as (r & Hr & Hrid & Hd).
  destruct (Hrecent r Hr) as (last & Hl & Hlt); [congruence|].
  by rewrite (is_due_recent env r last Hl Hlt) in Hd.
Qed.

Lemma tick_starts_only_due_rules_witness :
  let env := Sample.surroundings (Returned []) Sample.api_ok in
  let rules := [Fixture.ran_rule "rule_n" pause_download None true None
                  (Some 1700000300000)] in
  ~ exists run, run ∈ (tick_start env rules (Sample.world rules)).2 /\
                run_ruleId run = "rule_n".
Proof.
  intros env rules (run & Hin & Hid). revert run Hin Hid.
  apply (proj2 (tick_starts_only_due_rules env rules (Sample.world rules)) "rule_n").
  intros r Hr _. apply list_elem_of_singleton in Hr as ->.
  exists 1700000300000. split; [reflexivity|]. vm_compute. reflexivity.
Defined.

(* ===================================================================== *)
(** * Further properties: the rule store *)
(* ===================================================================== *)

Lemma find_rule_elem rules ruleId rule :
  find_rule rules ruleId = Some rule -> rule ∈ rules.
Proof.
  intros H. apply List.find_some in H as [H _]. by apply list_elem_of_In.
Qed.

Lemma find_rule_none rules ruleId :
  find_rule rules ruleId = None <-> forall r, r ∈ rules -> Rule.id r <> ruleId.
Proof.
  unfold find_rule. split.
  - intros H r Hr Hid. apply list_elem_of_In in Hr.
    pose proof (List.find_none _ _ H r Hr) as Hn. simpl in Hn.
    apply String.eqb_neq in Hn. done.
  - intros H. induction rules as [|r rs IH]; simpl; [done|].
    destruct (String.eqb (Rule.id r) ruleId) eqn:E.
    + apply String.eqb_eq in E. exfalso. apply (H r); [by left|done].
    + apply IH. intros r' Hr'. apply H. by right.
Qed.

(** With distinct ids, the rule found under an id is the only one. *)
Lemma find_rule_unique rules ruleId rule r :
  NoDup (map Rule.id rules) ->
  find_rule rules ruleId = Some rule ->
  r ∈ rules -> Rule.id r = ruleId -> r = rule.
Proof.
  unfold find_rule. induction rules as [|x xs IH]; simpl; [by intros _ [=]|].
  intros [Hx Hxs]%NoDup_cons Hf Hr Hid.
  destruct (String.eqb (Rule.id x) ruleId) eqn:E.
  - injection Hf as <-. apply String.eqb_eq in E.
    apply elem_of_cons in Hr as [->|Hr]; [done|].
    exfalso. apply Hx. rewrite E, <- Hid. by apply list_elem_of_fmap_2.
  - apply elem_of_cons in Hr as [->|Hr].
    + apply String.eqb_neq in E. done.
    + by apply IH.
Qed.

(** X4: A run of a rule whose action does not fit its scope (a stored rule, for
    one) does not execute: the rule is switched off and marked
    "Unsupported scope/action combination.", nothing is fetched, the lock is
    not taken and the run is not counted; scheduled triggers then leave it
    alone. *)
Theorem runRule_disables_unsupported_rule env rules ruleId rule trigger allowDisabled w :
  (ruleId ∉ w_runLock w) ->
  find_rule rules ruleId = Some rule ->
  Rule.enabled rule = true \/ allowDisabled = true ->
  rule_legal rule = false ->
  let w' := runRule env rules ruleId trigger allowDisabled w in
  w_rules w' = map_rule rules ruleId mark_unsupported /\
  w_trace w' = w_trace w /\ w_runLock w' = w_runLock w /\
  find_rule (w_rules w') ruleId = Some (mark_unsupported rule) /\
  Rule.enabled (mark_unsupported rule) = false /\
  Rule.runCount (mark_unsupported rule) = Rule.runCount rule /\
  (forall env' v, runRule env' (w_rules w') ruleId poll false v = v).
Proof.
  intros Hl Hf He Hs w'.
  assert (Hw : w' = (persistRules env (map_rule rules ruleId mark_unsupported) w).1).
  { subst w'. unfold runRule, runRule_start. rewrite bool_decide_eq_false_2 by done.
    rewrite Hf. unfold rule_legal in Hs. rewrite Hs. simpl.
    rewrite (find_rule_id _ _ _ Hf).
    destruct He as [-> | ->]; [done|]. by rewrite andb_false_r. }
  destruct (persistRules_effect env (map_rule rules ruleId mark_unsupported) w)
    as (w1 & Hp & Hr & Ht & Hk & _).
  rewrite Hp in Hw. simpl in Hw. subst w1.
  assert (Hfind : find_rule (w_rules w') ruleId = Some (mark_unsupported rule)).
  { rewrite Hr, find_rule_map_rule by done. by rewrite Hf. }
  repeat split; try done.
  intros env' v. unfold runRule.
  by rewrite (runRule_start_disabled env' _ ruleId _ v Hfind).
Qed.

Lemma runRule_disables_unsupported_rule_witness :
  let env := Sample.surroundings (Returned [Sample.done_item]) Sample.api_ok in
  let stored := Fixture.ran_rule "rule_w" reannounce_torrent (Some scope_web) true None None in
  let w' := runRule env [stored] "rule_w" poll false (Sample.world [stored]) in
  w_trace w' = [] /\
  find_rule (w_rules w') "rule_w" = Some (mark_unsupported stored).
Proof.
  intros env stored w'.
  destruct (runRule_disables_unsupported_rule env [stored] "rule_w" stored poll false
              (Sample.world [stored])) as (_ & Ht & _ & Hf & _).
  - intros Hin. by apply elem_of_empty in Hin.
  - reflexivity.
  - by left.
  - reflexivity.
  - split; [exact Ht|exact Hf].
Defined.

(** X5: Switching a rule off always goes through, without any dialog.
    Switching it on goes through exactly when its action fits its scope
    and, for a dangerous rule, the confirmation is accepted; otherwise the
    rule list and the saved copy stay as they were. *)
Theorem toggleRule_guards env rules ruleId rule w :
  find_rule rules ruleId = Some rule ->
  (exists w',
     toggleRule env rules ruleId false w = (w', Returned tt) /\
     w_rules w' = map_rule rules ruleId (set_enabled false) /\
     w_trace w' = w_trace w) /\
  (exists w',
     toggleRule env rules ruleId true w = (w', Returned tt) /\
     if rule_legal rule
        && (negb (bool_decide (Rule.isDangerous rule = Some true)) || confirm env)
     then w_rules w' = map_rule rules ruleId (set_enabled true)
     else w_rules w' = w_rules w /\ w_saved w' = w_saved w).
Proof.
  intros Hf. split.
  - unfold toggleRule. rewrite Hf. simpl.
    destruct (persistRules_effect env (map_rule rules ruleId (set_enabled false)) w)
      as (w' & -> & ? & ? & _). eauto.
  - unfold toggleRule, rule_legal. rewrite Hf. simpl.
    destruct (isActionSupportedForScope _ _); simpl.
    + destruct (bool_decide (Rule.isDangerous rule = Some true)); simpl.
      * unfold bind, emit, when. destruct (confirm env).
        -- destruct (persistRules_effect env (map_rule rules ruleId (set_enabled true))
                       (log (EvAlert "Enable Dangerous Rule"
                               (String (Ascii.ascii_of_nat 34) (Rule.name rule) +:+
                                String (Ascii.ascii_of_nat 34)
                                  " can permanently delete data. Enable anyway?")) w))
             as (w' & -> & ? & _). eauto.
        -- eexists. split; [reflexivity|done].
      * destruct (persistRules_effect env (map_rule rules ruleId (set_enabled true)) w)
          as (w' & -> & ? & _). eauto.
    + eexists. split; [reflexivity|done].
Qed.

Lemma toggleRule_guards_witness :
  let env := Sample.surroundings (Returned []) Sample.api_ok in
  let stored := Fixture.ran_rule "rule_w" reannounce_torrent (Some scope_web) false None None in
  exists w',
    toggleRule env [stored] "rule_w" true (Sample.world [stored]) = (w', Returned tt) /\
    w_rules w' = [stored].
Proof.
  intros env stored.
  destruct (toggleRule_guards env [stored] "rule_w" stored (Sample.world [stored]) eq_refl)
    as (_ & w' & Ht & Hr).
  exists w'. split; [exact Ht|]. exact (proj1 Hr).
Defined.

(** X6: [deleteRule] removes every rule of that id and nothing else: afterwards
    the id is not found, every other id finds what it found before, and a
    list without that id is left as it is. *)
Theorem deleteRule_removes_only_that_id env rules ruleId w :
  exists w',
    deleteRule env rules ruleId w = (w', Returned tt) /\
    find_rule (w_rules w') ruleId = None /\
    (forall other, other <> ruleId -> find_rule (w_rules w') other = find_rule rules other) /\
    (find_rule rules ruleId = None -> w_rules w' = rules) /\
    (length (w_rules w') <= length rules)%nat.
Proof.
  unfold deleteRule.
  destruct (persistRules_effect env
              (List.filter (fun r => negb (String.eqb (Rule.id r) ruleId)) rules) w)
    as (w' & Hp & Hr & _).
  exists w'. split; [exact Hp|]. rewrite Hr. clear. split; [|split; [|split]].
  - apply find_rule_none. intros r Hr Hid.
    apply list_elem_of_In, List.filter_In in Hr as [_ Hr].
    apply negb_true_iff, String.eqb_neq in Hr. done.
  - intros other Hne. unfold find_rule.
    induction rules as [|r rs IH]; simpl; [done|].
    destruct (String.eqb (Rule.id r) ruleId) eqn:E; simpl.
    + apply String.eqb_eq in E.
      destruct (String.eqb (Rule.id r) other) eqn:E'; [|exact IH].
      apply String.eqb_eq in E'. congruence.
    + destruct (String.eqb (Rule.id r) other); [done|exact IH].
  - intros Hn. rewrite find_rule_none in Hn.
    induction rules as [|r rs IH]; simpl; [done|].
    destruct (String.eqb (Rule.id r) ruleId) eqn:E; simpl.
    + apply String.eqb_eq in E. exfalso. apply (Hn r); [by left|done].
    + f_equal. apply IH. intros r' Hr'. apply Hn. by right.
  - apply List.filter_length_le.
Qed.

Lemma persistRules_rules env rs w : w_rules (persistRules env rs w).1 = rs.
Proof. unfold persistRules. by destruct (rules_write_ok env). Qed.

Lemma deleteRule_removes_only_that_id_witness :
  let env := Sample.surroundings (Returned []) Sample.api_ok in
  let rules := [Sample.pause_all true; Sample.scenario_A_rule] in
  exists w',
    deleteRule env rules "rule_p" (Sample.world rules) = (w', Returned tt) /\
    find_rule (w_rules w') "rule_p" = None /\
    find_rule (w_rules w') "rule_a" = Some Sample.scenario_A_rule.
Proof.
  intros env rules.
  destruct (deleteRule_removes_only_that_id env rules "rule_p" (Sample.world rules))
    as (w' & Hd & Hnone & Hother & _).
  exists w'. split; [exact Hd|]. split; [exact Hnone|].
  rewrite (Hother "rule_a") by discriminate. reflexivity.
Defined.

(** X8: Adding a rule, from a preset or custom, never changes the number of
    active rules: what is added is a disabled draft, and a refused or
    declined addition adds nothing. *)
Theorem new_rules_are_not_active env rules w :
  w_rules w = rules ->
  (forall presetId,
     enabledCount (w_rules (addRuleFromPreset env rules presetId w).1) = enabledCount rules) /\
  (forall params,
     enabledCount (w_rules (createCustomRule env rules params w).1) = enabledCount rules).
Proof.
  intros Hw.
  assert (Hadd : forall r, Rule.enabled r = false ->
                   enabledCount (rules ++ [r]) = enabledCount rules).
  { intros r Hr. unfold enabledCount. rewrite List.filter_app, length_app. simpl.
    rewrite Hr. simpl. lia. }
  split.
  - intros presetId. unfold addRuleFromPreset.
    destruct (List.find _ TORBOX_RULE_PRESETS) as [p|]; [|by rewrite <- Hw].
    unfold bind, emit, ret, persistRules.
    case_bool_decide; [destruct (confirm env)|]; destruct (rules_write_ok env); simpl;
      rewrite ?Hw; try done; by apply Hadd.
  - intros params. unfold createCustomRule, bind, ret, persistRules, throw.
    destruct (negb (SUPPORTED_ACTION_SET_has (p_action params))); [by rewrite <- Hw|].
    destruct (negb (isActionSupportedForScope _ _)); [by rewrite <- Hw|].
    destruct (rules_write_ok env); simpl; by apply Hadd.
Qed.

Lemma new_rules_are_not_active_witness :
  let env := Sample.surroundings (Returned []) Sample.api_ok in
  let rules := [Sample.pause_all true] in
  enabledCount (w_rules (addRuleFromPreset env rules "delete_very_old_completed"
                           (Sample.world rules)).1) = 1%nat.
Proof.
  intros env rules.
  destruct (new_rules_are_not_active env rules (Sample.world rules) eq_refl) as [H _].
  rewrite H. reflexivity.
Defined.

(** X7: What [createCustomRule] does with its parameters: it throws exactly when
    the action is 'reannounce_torrent' with a scope other than 'torrent';
    otherwise it appends one rule and returns it.  The new rule is a
    disabled draft that has never run, carries the scope given ('all' when
    none is), checks at least every minute, is marked dangerous exactly for
    'delete_download', and is legal. *)
Theorem createCustomRule_accepts_legal_drafts env rules params w :
  let scope := default scope_all (p_scope params) in
  if isActionSupportedForScope (p_action params) scope then
    exists w' r,
      createCustomRule env rules params w = (w', Returned r) /\
      w_rules w' = rules ++ [r] /\
      Rule.enabled r = false /\ Rule.runCount r = 0 /\ Rule.lastRunAt r = None /\
      Rule.scope r = Some scope /\ Rule.action r = p_action params /\
      1 <= Rule.checkIntervalMinutes r /\
      (Rule.isDangerous r = Some true <-> p_action params = delete_download) /\
      rule_legal r = true
  else
    createCustomRule env rules params w
    = (w, Threw (ErrorObject "This action is not supported for the selected scope.")).
Proof.
  intros scope. unfold createCustomRule. fold scope.
  assert (Hsup : SUPPORTED_ACTION_SET_has (p_action params) = true)
    by (by destruct (p_action params)).
  rewrite Hsup. simpl.
  destruct (isActionSupportedForScope (p_action params) scope) eqn:Hs; simpl; [|done].
  unfold bind.
  match goal with
  | |- context [persistRules env ?rs w] =>
      destruct (persistRules_effect env rs w) as (w' & -> & Hr & _)
  end.
  eexists _, _. split; [reflexivity|]. split; [exact Hr|]. simpl.
  repeat split; try done; try lia.
  - intros [= H]. by apply bool_decide_eq_true in H.
  - intros ->. done.
Qed.

Lemma createCustomRule_accepts_legal_drafts_witness :
  let env := Sample.surroundings (Returned []) Sample.api_ok in
  exists w' r,
    createCustomRule env []
      {| p_name := "Clean up"; p_checkIntervalMinutes := 0; p_conditions := [];
         p_action := delete_download; p_actionValue := None; p_scope := None |}
      (Sample.world [])
    = (w', Returned r) /\
    Rule.enabled r = false /\ 1 <= Rule.checkIntervalMinutes r /\
    Rule.isDangerous r = Some true.
Proof.
  intros env.
  pose proof (createCustomRule_accepts_legal_drafts env []
                {| p_name := "Clean up"; p_checkIntervalMinutes := 0; p_conditions := [];
                   p_action := delete_download; p_actionValue := None; p_scope := None |}
                (Sample.world [])) as H.
  simpl in H. destruct H as (w' & r & Hc & _ & He & _ & _ & _ & _ & Hi & Hd & _).
  exists w', r. split; [exact Hc|]. split; [exact He|]. split; [exact Hi|].
  apply Hd. reflexivity.
Defined.

Lemma presets_are_legal now p :
  p ∈ TORBOX_RULE_PRESETS -> rule_legal (createRuleFromPreset now p) = true.
Proof.
  unfold TORBOX_RULE_PRESETS. intros Hp.
  repeat (apply elem_of_cons in Hp as [-> | Hp]); try reflexivity.
  by apply elem_of_nil in Hp.
Qed.

Lemma Forall_map_rule (P : Rule.t -> Prop) rules ruleId f :
  Forall P rules ->
  (forall r, r ∈ rules -> Rule.id r = ruleId -> P (f r)) ->
  Forall P (map_rule rules ruleId f).
Proof.
  intros HP Hf. unfold map_rule. apply Forall_fmap, Forall_forall.
  intros r Hr. simpl. destruct (String.eqb (Rule.id r) ruleId) eqn:E.
  - apply Hf; [done|]. by apply String.eqb_eq.
  - by eapply Forall_forall in HP.
Qed.

(** X9: The store keeps the rule list legal.  From a list whose rules all have
    an action that fits their scope and whose ids are distinct, adding a
    preset, creating a custom rule, updating, toggling, deleting and running
    a rule each leave a list whose rules are all legal. *)
Theorem store_operations_keep_rules_legal env rules w :
  w_rules w = rules ->
  Forall (fun r => rule_legal r = true) rules ->
  NoDup (map Rule.id rules) ->
  (forall presetId,
     Forall (fun r => rule_legal r = true)
            (w_rules (addRuleFromPreset env rules presetId w).1)) /\
  (forall params,
     Forall (fun r => rule_legal r = true)
            (w_rules (createCustomRule env rules params w).1)) /\
  (forall ruleId updates,
     Forall (fun r => rule_legal r = true)
            (w_rules (updateRule env rules ruleId updates w).1)) /\
  (forall ruleId enabled,
     Forall (fun r => rule_legal r = true)
            (w_rules (toggleRule env rules ruleId enabled w).1)) /\
  (forall ruleId,
     Forall (fun r => rule_legal r = true)
            (w_rules (deleteRule env rules ruleId w).1)) /\
  (forall ruleId trigger allowDisabled,
     Forall (fun r => rule_legal r = true)
            (w_rules (runRule env rules ruleId trigger allowDisabled w))).
Proof.
  intros Hw Hlegal Hnodup.
  assert (Hpersist : forall rs v,
            Forall (fun r => rule_legal r = true) rs ->
            Forall (fun r => rule_legal r = true) (w_rules (persistRules env rs v).1)).
  { intros rs v Hrs. by rewrite persistRules_rules. }
  assert (Hkeep : forall f ruleId,
            (forall r, rule_legal (f r) = rule_legal r) ->
            Forall (fun r => rule_legal r = true) (map_rule rules ruleId f)).
  { intros f ruleId Hf. apply Forall_map_rule; [done|].
    intros r Hr _. rewrite Hf. by eapply Forall_forall in Hlegal. }
  repeat split.
  - intros presetId. unfold addRuleFromPreset.
    destruct (List.find _ TORBOX_RULE_PRESETS) as [p|] eqn:Hp; [|(simpl; by rewrite Hw)].
    apply List.find_some in Hp as [Hp%list_elem_of_In _].
    assert (Hnew : Forall (fun r => rule_legal r = true)
                     (rules ++ [createRuleFromPreset (now env) p])).
    { apply Forall_app. split; [done|]. apply Forall_singleton. by apply presets_are_legal. }
    unfold bind, emit, ret.
    case_bool_decide; [destruct (confirm env)|]; simpl.
    + by destruct (rules_write_ok env).
    + by rewrite Hw.
    + by destruct (rules_write_ok env).
  - intros params. unfold createCustomRule.
    destruct (negb (SUPPORTED_ACTION_SET_has (p_action params)));
      [simpl; by rewrite Hw|].
    destruct (isActionSupportedForScope (p_action params)
                (default scope_all (p_scope params))) eqn:Hs; simpl; [|by rewrite Hw].
    destruct (rules_write_ok env); simpl;
      (apply Forall_app; split; [done|]); apply Forall_singleton; exact Hs.
  - intros ruleId updates. unfold updateRule.
    destruct (find_rule rules ruleId) as [existing|] eqn:Hf; [|(simpl; by rewrite Hw)].
    destruct (isActionSupportedForScope _ _) eqn:Hs; simpl; [|(simpl; by rewrite Hw)].
    apply Hpersist, Forall_map_rule; [done|].
    intros r Hr Hid. rewrite (find_rule_unique rules ruleId existing r) by done.
    unfold rule_legal. simpl.
    destruct (u_scope updates) as [s|]; exact Hs.
  - intros ruleId enabled. unfold toggleRule.
    destruct (find_rule rules ruleId) as [rule|]; [|(simpl; by rewrite Hw)].
    destruct (enabled && negb _); [(simpl; by rewrite Hw)|].
    destruct (enabled && bool_decide _).
    + unfold bind, emit, when. destruct (confirm env); [|(simpl; by rewrite Hw)].
      apply Hpersist, Hkeep. done.
    + apply Hpersist, Hkeep. done.
  - intros ruleId. unfold deleteRule. apply Hpersist.
    apply Forall_forall. intros r Hr%list_elem_of_In%List.filter_In.
    destruct Hr as [Hr%list_elem_of_In _]. by eapply Forall_forall in Hlegal.
  - intros ruleId trigger allowDisabled. unfold runRule.
    destruct (runRule_start env rules ruleId trigger allowDisabled w) as [w1 [run|]] eqn:E.
    + destruct (runRule_finish env rules run w1) as [w2 o] eqn:E2. simpl.
      revert E2.
      unfold runRule_finish, finally, try_catch, runRule_try, runRule_catch,
        bind, emit, persistRules, when, ret.
      cbv beta.
      destruct (snapshot env) as [items|e];
        [destruct (executeAction env (run_rule run) _ _) as [w3 [summary|e]]|];
        destruct (is_manual (run_trigger run)), (rules_write_ok env);
        intros [= <- _]; simpl; by apply Hkeep.
    + revert E. unfold runRule_start.
      case_bool_decide; [intros [= <-]; by rewrite Hw|].
      destruct (find_rule rules ruleId) as [rule|]; [|intros [= <-]; by rewrite Hw].
      destruct (negb (Rule.enabled rule) && negb allowDisabled);
        [intros [= <-]; by rewrite Hw|].
      destruct (negb (isActionSupportedForScope _ _)); [|done].
      intros [= <-]. apply Hpersist, Hkeep. done.
Qed.

Lemma store_operations_keep_rules_legal_witness :
  let env := Sample.surroundings (Returned []) Sample.api_ok in
  let stored := Fixture.ran_rule "rule_t" reannounce_torrent (Some scope_torrent) true None None in
  Forall (fun r => rule_legal r = true)
    (w_rules (updateRule env [stored] "rule_t"
                {| u_name := None; u_checkIntervalMinutes := None; u_conditions := None;
                   u_action := Some pause_download; u_actionValue := None;
                   u_scope := Some scope_web |} (Sample.world [stored])).1).
Proof.
  intros env stored.
  destruct (store_operations_keep_rules_legal env [stored] (Sample.world [stored]))
    as (_ & _ & H & _).
  - reflexivity.
  - apply Forall_singleton. reflexivity.
  - apply NoDup_singleton.
  - apply H.
Defined.

(* ===================================================================== *)
(** * Further properties: the action executor and the notification store *)
(* ===================================================================== *)

Lemma getAppNotifications_length env w :
  (length (getAppNotifications env w) <= length (w_notifications w))%nat.
Proof.
  unfold getAppNotifications. destruct (notify_read env); simpl; try lia.
  apply List.filter_length_le.
Qed.

Lemma filter_all_true {A} (p : A -> bool) (l : list A) :
  (forall x, x ∈ l -> p x = true) -> List.filter p l = l.
Proof.
  induction l as [|x l IH]; intros H; simpl; [done|].
  rewrite (H x) by (by left). f_equal. apply IH. intros y Hy. apply H. by right.
Qed.

(** X11: The notification store keeps the newest entry first and never more
    than 200 entries: an append stores the new notification, unread,
    followed by the first 199 of the entries [getAppNotifications] read.
    Those are all the stored entries when the stored array reads back whole,
    and none when the read throws or finds no array: the store then holds the
    new notification alone.  When the write fails the store is left as it
    was and the error is passed on. *)
Theorem appendAppNotification_newest_first_capped env title message w :
  match notify_write env with
  | None =>
      exists w' note,
        appendAppNotification env title message w = (w', Returned note) /\
        Notification.title note = title /\ Notification.message note = message /\
        Notification.read note = false /\
        w_notifications w' = note :: take 199 (getAppNotifications env w) /\
        (length (w_notifications w') <= 200)%nat /\
        (forall shaped, notify_read env = ReadArray shaped ->
           (forall old, old ∈ w_notifications w -> shaped old = true) ->
           w_notifications w' = note :: take 199 (w_notifications w)) /\
        (notify_read env = ReadThrows \/ notify_read env = ReadNoArray ->
           w_notifications w' = [note]) /\
        w_rules w' = w_rules w /\ w_trace w' = w_trace w
  | Some e => appendAppNotification env title message w = (w, Threw e)
  end.
Proof.
  unfold appendAppNotification. destruct (notify_write env) as [e|]; [done|].
  eexists _, _. split; [reflexivity|].
  cbn [w_notifications w_rules w_trace set_notifications
       Notification.title Notification.message Notification.read].
  change (take MAX_NOTIFICATIONS (?n :: ?l)) with (n :: take 199 l).
  repeat split.
  - rewrite length_cons, length_take. lia.
  - intros shaped Hr Hall. unfold getAppNotifications. rewrite Hr.
    by rewrite filter_all_true.
  - intros [Hr | Hr]; unfold getAppNotifications; by rewrite Hr.
Qed.

Lemma appendAppNotification_newest_first_capped_witness :
  let env := {| now := 1700000600000; random := "k3x9qa"; snapshot := Returned [];
                api := Sample.api_ok; notify_read := ReadThrows;
                notify_write := None; rules_write_ok := true; confirm := true |} in
  let old := {| Notification.id := "local-1"; Notification.title := "Automation ran";
                Notification.message := "Earlier"; Notification.createdAt := 1;
                Notification.read := true |} in
  let w := set_notifications [old] (Sample.world []) in
  exists w' note,
    appendAppNotification env "Automation ran" "My rule processed 1 item." w
    = (w', Returned note) /\
    w_notifications w' = [note].
Proof.
  intros env old w.
  pose proof (appendAppNotification_newest_first_capped env "Automation ran"
                "My rule processed 1 item." w) as H.
  simpl in H. destruct H as (w' & note & Ha & _ & _ & _ & _ & _ & _ & Hlost & _).
  exists w', note. split; [exact Ha|]. apply Hlost. by left.
Defined.

Lemma applyAction_at_most_one_call env rule target w w' o :
  applyAction env rule target w = (w', o) ->
  w' = w \/ exists c, w' = log (EvApi c) w.
Proof.
  unfold applyAction, when, is_source, bind, ret, api_call.
  destruct (Rule.action rule), (Target.source target); simpl;
    repeat match goal with
      | |- context [head ?l] => destruct (head l) eqn:?
      | |- context [truthy_number ?n] => destruct (truthy_number n) eqn:?
      | |- context [api env ?c] => destruct (api env c) eqn:?
      end;
    intros [= <- _]; eauto.
Qed.

Lemma forTargets_call_bound env rule targets : forall n w w' o,
  forTargets env rule targets n w = (w', o) ->
  (count_api_calls (w_trace w') <= count_api_calls (w_trace w) + length targets)%nat.
Proof.
  induction targets as [|t ts IH]; intros n w w' o; simpl.
  - intros [= <- _]. lia.
  - unfold bind. destruct (applyAction env rule t w) as [w1 [b|e]] eqn:E;
      apply applyAction_at_most_one_call in E.
    + intros H%IH.
      destruct E as [-> | (c & ->)]; simpl in *;
        rewrite ?count_api_calls_app in *; unfold count_api_calls in *; simpl in *; lia.
    + intros [= <- _].
      destruct E as [-> | (c & ->)]; simpl;
        rewrite ?count_api_calls_app; unfold count_api_calls; simpl; lia.
Qed.

(** X12: Whatever the action and however the remote API answers, one run of the
    executor makes at most one API call per target, adds at most one
    notification, and touches neither the rule list nor the run-lock. *)
Theorem executeAction_is_bounded env rule targets w w' o :
  executeAction env rule targets w = (w', o) ->
  (count_api_calls (w_trace w') <= count_api_calls (w_trace w) + length targets)%nat /\
  (length (w_notifications w') <= S (length (w_notifications w)))%nat /\
  w_rules w' = w_rules w /\ w_saved w' = w_saved w /\ w_runLock w' = w_runLock w.
Proof.
  intros H.
  pose proof (executeAction_effect _ _ _ _ _ _ H) as (Hr & Hs & Hl & _).
  split; [|split; [|done]].
  - destruct targets as [|t ts]; [injection H as <- _; simpl; lia|].
    rewrite executeAction_nonempty in H by done. revert H.
    unfold bind at 1.
    destruct (forTargets env rule (t :: ts) 0%nat w) as [w1 [n|e]] eqn:E;
      apply forTargets_call_bound in E.
    + unfold bind, when, appendAppNotification, ret.
      destruct (Nat.ltb 0 n), (notify_write env); intros [= <- _]; simpl; exact E.
    + intros [= <- _]. exact E.
  - destruct targets as [|t ts]; [injection H as <- _; simpl; lia|].
    rewrite executeAction_nonempty in H by done. revert H.
    unfold bind at 1.
    destruct (forTargets env rule (t :: ts) 0%nat w) as [w1 [n|e]] eqn:E;
      apply forTargets_effect in E; destruct E as (_ & _ & _ & Hn & _).
    + unfold bind, when, appendAppNotification, ret.
      pose proof (getAppNotifications_length env w1) as Hg. rewrite Hn in Hg.
      destruct (Nat.ltb 0 n), (notify_write env); intros [= <- _];
        cbn [w_notifications set_notifications];
        rewrite ?length_take, ?length_cons, ?length_take, ?Hn; lia.
    + intros [= <- _]. rewrite Hn. lia.
Qed.

Lemma executeAction_is_bounded_witness :
  let env := Sample.surroundings (Returned []) Sample.api_ok in
  let r := executeAction env (Sample.pause_all true)
             [Sample.done_item; Sample.partial_item] (Sample.world []) in
  (count_api_calls (w_trace r.1) <= 2)%nat /\ (length (w_notifications r.1) <= 1)%nat.
Proof.
  intros env r.
  destruct (executeAction_is_bounded env (Sample.pause_all true)
              [Sample.done_item; Sample.partial_item] (Sample.world []) r.1 r.2)
    as (Hc & Hn & _).
  - subst r. by destruct (executeAction _ _ _ _).
  - split; [exact Hc|exact Hn].
Defined.

Lemma forTargets_notify env rule targets :
  Rule.action rule = notify_user ->
  forall n w, forTargets env rule targets n w = (w, Returned (n + length targets)%nat).
Proof.
  intros Ha. induction targets as [|t ts IH]; intros n w; simpl.
  - unfold ret. do 2 f_equal. lia.
  - unfold bind, applyAction. rewrite Ha. simpl. rewrite IH. do 2 f_equal. lia.
Qed.

(** X13: With action 'notify_user' the executor calls nothing on the remote
    API.  An empty batch gives "No matching downloads found." and changes
    nothing.  For any other batch every target counts: the summary
    notification "<name> processed n item(s)." is stored in front of the
    first 199 entries [getAppNotifications] read and the result is
    "Processed n item(s).", n being the number of targets; when the write of
    that notification fails, its error is thrown and nothing has changed. *)
Theorem notify_user_counts_every_target env rule targets w :
  Rule.action rule = notify_user ->
  let n := length targets in
  match targets, notify_write env with
  | [], _ => executeAction env rule targets w = (w, Returned "No matching downloads found.")
  | _ :: _, None =>
      exists w' note,
        executeAction env rule targets w
        = (w', Returned ("Processed " +:+ digits_of_Z (Z.of_nat n) +:+ " item"
                         +:+ plural n +:+ ".")) /\
        w_trace w' = w_trace w /\
        w_notifications w' = note :: take 199 (getAppNotifications env w) /\
        Notification.title note = "Automation ran" /\
        Notification.message note
        = Rule.name rule +:+ " processed " +:+ digits_of_Z (Z.of_nat n)
          +:+ " item" +:+ plural n +:+ "." /\
        w_rules w' = w_rules w
  | _ :: _, Some e => executeAction env rule targets w = (w, Threw e)
  end.
Proof.
  intros Ha n. destruct targets as [|t ts]; [done|].
  assert (Hn : Nat.ltb 0 n = true) by (apply Nat.ltb_lt; subst n; simpl; lia).
  assert (Hrun : executeAction env rule (t :: ts) w
                 = (let* _ := when true
                               (let* _ := appendAppNotification env "Automation ran"
                                            (Rule.name rule +:+ " processed "
                                             +:+ digits_of_Z (Z.of_nat n)
                                             +:+ " item" +:+ plural n +:+ ".") in
                                ret tt) in
                    ret ("Processed " +:+ digits_of_Z (Z.of_nat n) +:+ " item"
                         +:+ plural n +:+ ".")) w).
  { rewrite executeAction_nonempty by done.
    unfold bind at 1. rewrite (forTargets_notify env rule (t :: ts) Ha).
    cbn [Nat.add]. fold n. by rewrite Hn. }
  rewrite Hrun. unfold when, bind, appendAppNotification, ret.
  destruct (notify_write env) as [e|]; [done|].
  eexists _, _. split; [reflexivity|].
  cbn [w_trace w_notifications w_rules set_notifications
       Notification.title Notification.message].
  change (take MAX_NOTIFICATIONS (?x :: ?l)) with (x :: take 199 l).
  repeat split.
Qed.

Lemma notify_user_counts_every_target_witness :
  let env := Sample.surroundings (Returned []) Sample.api_torrent_down in
  exists w' note,
    executeAction env Sample.scenario_A_rule [Sample.done_item; Sample.partial_item]
      (Sample.world [])
    = (w', Returned "Processed 2 items.") /\
    w_trace w' = [] /\ w_notifications w' = [note] /\
    Notification.message note = "My rule processed 2 items.".
Proof.
  intros env.
  pose proof (notify_user_counts_every_target env Sample.scenario_A_rule
                [Sample.done_item; Sample.partial_item] (Sample.world []) eq_refl) as H.
  simpl in H. destruct H as (w' & note & He & Ht & Hn & _ & Hm & _).
  exists w', note. split; [exact He|]. split; [exact Ht|]. split; [exact Hn|exact Hm].
Defined.

Lemma forTargets_reannounce env rule targets :
  Rule.action rule = reannounce_torrent ->
  (forall c, api env c = None) ->
  forall n w, exists w',
    forTargets env rule targets n w
    = (w', Returned (n + length (List.filter (fun t => is_source t torrent) targets))%nat) /\
    w_trace w'
    = w_trace w ++ map (fun t => EvApi (controlTorrent (Target.sourceId t) op_reannounce))
                       (List.filter (fun t => is_source t torrent) targets) /\
    w_notifications w' = w_notifications w.
Proof.
  intros Ha Hok. induction targets as [|t ts IH]; intros n w; simpl.
  - exists w. unfold ret. rewrite app_nil_r, Nat.add_0_r. done.
  - unfold bind, applyAction. rewrite Ha.
    destruct (is_source t torrent) eqn:Hs.
    + unfold bind, api_call. rewrite Hok. simpl.
      destruct (IH (S n) (log (EvApi (controlTorrent (Target.sourceId t) op_reannounce)) w))
        as (w' & -> & Ht & Hn).
      exists w'. split; [do 2 f_equal; lia|]. split; [|done].
      rewrite Ht. simpl. by rewrite <- app_assoc.
    + simpl. destruct (IH n w) as (w' & -> & Ht & Hn). eauto.
Qed.

(** X14: With action 'reannounce_torrent' and a remote API that accepts the
    calls, the calls made are exactly the reannounce of each torrent target,
    in order; usenet and web targets cause no call and are not counted.  The
    result is "No matching downloads found." for an empty batch, "No
    supported items matched this action." when no target is a torrent, and
    otherwise "Processed n item(s)." for the n torrents, or the error of the
    summary notification when its write fails. *)
Theorem reannounce_reaches_only_torrents env rule targets w :
  Rule.action rule = reannounce_torrent ->
  (forall c, api env c = None) ->
  let torrents := List.filter (fun t => is_source t torrent) targets in
  let r := executeAction env rule targets w in
  w_trace r.1
  = w_trace w ++ map (fun t => EvApi (controlTorrent (Target.sourceId t) op_reannounce))
                     torrents /\
  r.2 = match targets, torrents, notify_write env with
        | [], _, _ => Returned "No matching downloads found."
        | _ :: _, [], _ => Returned "No supported items matched this action."
        | _ :: _, _ :: _, None =>
            Returned ("Processed " +:+ digits_of_Z (Z.of_nat (length torrents))
                      +:+ " item" +:+ plural (length torrents) +:+ ".")
        | _ :: _, _ :: _, Some e => Threw e
        end.
Proof.
  intros Ha Hok torrents r. subst r.
  destruct targets as [|t ts].
  { simpl. by rewrite app_nil_r. }
  destruct (executeAction env rule (t :: ts) w) as [w' o] eqn:E.
  rewrite executeAction_nonempty in E by done. revert E.
  unfold bind at 1.
  destruct (forTargets_reannounce env rule (t :: ts) Ha Hok 0%nat w) as (w1 & -> & Ht & _).
  cbn [Nat.add]. fold torrents. fold torrents in Ht.
  unfold when, bind, appendAppNotification, ret.
  destruct torrents as [|x xs]; cbn [length Nat.ltb Nat.leb].
  - by intros [= <- <-].
  - destruct (notify_write env); intros [= <- <-]; by rewrite <- Ht.
Qed.

Lemma reannounce_reaches_only_torrents_witness :
  let env := Sample.surroundings (Returned []) Sample.api_ok in
  let rule := Sample.rule "rule_r" reannounce_torrent (Some scope_torrent) [] true in
  let r := executeAction env rule [Sample.partial_item; Sample.done_item] (Sample.world []) in
  r.2 = Returned "Processed 1 item." /\
  w_trace r.1 = [EvApi (controlTorrent (Target.sourceId Sample.done_item) op_reannounce)].
Proof.
  intros env rule r.
  destruct (reannounce_reaches_only_torrents env rule
              [Sample.partial_item; Sample.done_item] (Sample.world [])
              eq_refl (fun _ => eq_refl)) as (Ht & He).
  split; [exact He|exact Ht].
Defined.

Lemma runRule_start_rejected env rules ruleId trigger allowDisabled w w1 :
  runRule_start env rules ruleId trigger allowDisabled w = (w1, None) ->
  w_runLock w1 = w_runLock w /\ w_trace w1 = w_trace w.
Proof.
  unfold runRule_start. case_bool_decide; [by intros [= <-]|].
  destruct (find_rule rules ruleId) as [rule|]; [|by intros [= <-]].
  destruct (negb (Rule.enabled rule) && negb allowDisabled); [by intros [= <-]|].
  destruct (negb (isActionSupportedForScope _ _)); [|done].
  intros [= <-]. unfold persistRules. by destruct (rules_write_ok env).
Qed.

Lemma tick_step_invariant env rules w acc rule :
  tick_invariant w acc -> tick_invariant w (tick_step env rules acc rule).
Proof.
  intros (Hnd & Hlock & Hfree & Hf & He). unfold tick_step.
  destruct (is_due env rule); [|done].
  destruct (runRule_start env rules (Rule.id rule) poll false acc.1) as [w1 [run|]] eqn:E.
  - apply runRule_start_acquired in E as (-> & Hid & _ & _ & Hnl & _).
    assert (Hnew : Rule.id rule ∉ map run_ruleId acc.2).
    { intros Hin. apply Hnl, Hlock. by right. }
    unfold tick_invariant. simpl. rewrite map_app, length_app. simpl. rewrite Hid.
    split; [|split; [|split; [|split]]].
    + apply NoDup_app. split; [done|]. split; [|apply NoDup_singleton].
      intros x Hx ->%list_elem_of_singleton. done.
    + intros id. rewrite elem_of_union, elem_of_singleton, elem_of_app,
        list_elem_of_singleton, Hlock. tauto.
    + intros r [Hr | ->%list_elem_of_singleton]%elem_of_app; [by apply Hfree|].
      rewrite Hid. intros Hin. apply Hnl, Hlock. by left.
    + rewrite count_fetches_app, Hf. unfold count_fetches at 2. simpl. lia.
    + rewrite count_executions_app, He. unfold count_executions at 2. simpl. lia.
  - apply runRule_start_rejected in E as [Hl Ht].
    unfold tick_invariant. simpl. rewrite Hl, Ht. done.
Qed.

Lemma tick_fold_invariant env rules w (l : list Rule.t) : forall acc,
  tick_invariant w acc -> tick_invariant w (fold_left (tick_step env rules) l acc).
Proof.
  induction l as [|r l IH]; intros acc Hacc; simpl; [done|].
  by apply IH, tick_step_invariant.
Qed.

(** X3: One firing of the interval starts at most one run per rule id, even
    when several rules carry the id; the ids it starts were free before and
    are exactly what it adds to the run-lock set; it sets off one snapshot
    fetch per started run and does not enter the executor itself. *)
Theorem tick_starts_each_id_at_most_once env rules w :
  let w' := (tick_start env rules w).1 in
  let runs := (tick_start env rules w).2 in
  NoDup (map run_ruleId runs) /\
  (forall id, id ∈ w_runLock w' <-> id ∈ w_runLock w \/ id ∈ map run_ruleId runs) /\
  (forall run, run ∈ runs -> run_ruleId run ∉ w_runLock w) /\
  count_fetches (w_trace w') = (count_fetches (w_trace w) + length runs)%nat /\
  count_executions (w_trace w') = count_executions (w_trace w).
Proof.
  apply (tick_fold_invariant env rules w rules (w, [])).
  unfold tick_invariant. simpl. repeat split; try tauto; try lia.
  - apply NoDup_nil_2.
  - intros [?|Hin]; [done|]. by apply elem_of_nil in Hin.
  - intros run Hin. by apply elem_of_nil in Hin.
Qed.

Lemma tick_starts_each_id_at_most_once_witness :
  let env := Sample.surroundings (Returned []) Sample.api_ok in
  let rules := [Sample.pause_all true; Sample.pause_all true] in
  map run_ruleId (tick_start env rules (Sample.world rules)).2 = ["rule_p"] /\
  "rule_p" ∈ w_runLock (tick_start env rules (Sample.world rules)).1.
Proof.
  intros env rules.
  destruct (tick_starts_each_id_at_most_once env rules (Sample.world rules))
    as (_ & Hlock & _).
  split; [reflexivity|].
  apply Hlock. right. apply list_elem_of_here.
Defined.

(* ===================================================================== *)
(** * Further properties: the snapshot builder *)
(* ===================================================================== *)

Lemma filter_map_all {A B} (p : B -> bool) (f : A -> B) (l : list A) :
  (forall x, p (f x) = true) -> List.filter p (map f l) = map f l.
Proof.
  intros H. induction l as [|x l IH]; simpl; [done|]. by rewrite H, IH.
Qed.

Lemma filter_map_none {A B} (p : B -> bool) (f : A -> B) (l : list A) :
  (forall x, p (f x) = false) -> List.filter p (map f l) = [].
Proof.
  intros H. induction l as [|x l IH]; simpl; [done|]. by rewrite H.
Qed.

(** X16: The snapshot lists the torrents first, then the usenet items, then the
    web downloads, one target each; a rule without conditions matches, of
    that snapshot, exactly the part that came from the collection of its
    scope, and the whole of it under scope 'all' or no scope. *)
Theorem toTargets_splits_by_scope now torrents usenetItems webItems :
  let targets := toTargets_of now torrents usenetItems webItems in
  length targets = (length torrents + length usenetItems + length webItems)%nat /\
  map Target.source targets
  = replicate (length torrents) torrent ++ replicate (length usenetItems) usenet
    ++ replicate (length webItems) web /\
  (forall at_ms rule,
     Rule.conditions rule = [] ->
     List.filter (matchesRule at_ms rule) targets
     = match Rule.scope rule with
       | Some scope_torrent => map (target_of_torrent now) torrents
       | Some scope_usenet => map (target_of_usenet now) usenetItems
       | Some scope_web => map (target_of_web now) webItems
       | Some scope_all | None => targets
       end).
Proof.
  intros targets. subst targets. unfold toTargets_of. split; [|split].
  - rewrite !length_app, !length_map. lia.
  - rewrite !map_app, !map_map. simpl.
    f_equal; [|f_equal].
    + induction torrents; simpl; congruence.
    + induction usenetItems; simpl; congruence.
    + induction webItems; simpl; congruence.
  - intros at_ms rule Hc. rewrite !List.filter_app.
    destruct (Rule.scope rule) as [[]|] eqn:Hs.
    + rewrite !filter_map_all; [done|..]; intros x; unfold matchesRule; by rewrite Hs, Hc.
    + rewrite filter_map_all, !filter_map_none; [by rewrite !app_nil_r|..];
        intros x; unfold matchesRule; by rewrite Hs, ?Hc.
    + rewrite (filter_map_all _ (target_of_usenet now)), !filter_map_none;
        [by rewrite !app_nil_r|..]; intros x; unfold matchesRule; by rewrite Hs, ?Hc.
    + rewrite (filter_map_all _ (target_of_web now)), !filter_map_none;
        [done|..]; intros x; unfold matchesRule; by rewrite Hs, ?Hc.
    + rewrite !filter_map_all; [done|..]; intros x; unfold matchesRule; by rewrite Hs, Hc.
Qed.

Lemma toTargets_splits_by_scope_witness :
  List.filter (matchesRule 1700000600000
                 (Sample.rule "rule_u" pause_download (Some scope_usenet) [] true))
    (toTargets_of 1700000600000 [Fixture.torrent_item 1 1700000000000]
       [Fixture.usenet_item 2 1700000000000] [Fixture.web_item 3 None])
  = [target_of_usenet 1700000600000 (Fixture.usenet_item 2 1700000000000)].
Proof.
  destruct (toTargets_splits_by_scope 1700000600000 [Fixture.torrent_item 1 1700000000000]
              [Fixture.usenet_item 2 1700000000000] [Fixture.web_item 3 None])
    as (_ & _ & H).
  rewrite (H 1700000600000 (Sample.rule "rule_u" pause_download (Some scope_usenet) [] true))
    by reflexivity.
  reflexivity.
Defined.

Lemma Math_max0_not_negative x : num_ltb (Math_max0 x) (Finite 0) = false.
Proof.
  destruct x as [|[]|q]; simpl; try done.
  destruct (Qle_bool q 0) eqn:E; simpl; [done|].
  unfold Qlt_bool. apply negb_false_iff, Qle_bool_iff.
  destruct (Qlt_le_dec 0 q) as [H|H]; [by apply Qlt_le_weak|].
  apply Qle_bool_iff in H. congruence.
Qed.

(** X17: The stalled time of a target is never negative: for an item whose
    update time lies in the future the snapshot carries 0 minutes (an
    unreadable update time gives NaN). *)
Theorem toTargets_stalledMinutes_not_negative now torrents usenetItems webItems target :
  target ∈ toTargets_of now torrents usenetItems webItems ->
  num_ltb (Target.stalledMinutes target) (Finite 0) = false.
Proof.
  unfold toTargets_of. rewrite !elem_of_app, !list_elem_of_fmap.
  intros [(x & -> & _) | [(x & -> & _) | (x & -> & _)]]; apply Math_max0_not_negative.
Qed.

Lemma toTargets_stalledMinutes_not_negative_witness :
  Target.stalledMinutes (target_of_torrent 1700000600000
                           (Fixture.torrent_item 1 1700000900000)) = Finite 0 /\
  Target.stalledMinutes (target_of_torrent 1700000600000
                           (Fixture.torrent_item 1 1700000000000)) = Finite 10.
Proof.
  pose proof (toTargets_stalledMinutes_not_negative 1700000600000
                [Fixture.torrent_item 1 1700000900000] [] []
                _ (list_elem_of_here _ _)) as H.
  split; [|reflexivity].
  revert H. vm_compute. reflexivity.
Defined.

(* ===================================================================== *)
(** * Further properties: loading the stored rules *)
(* ===================================================================== *)

Lemma action_of_string_action_string a : action_of_string (action_string a) = Some a.
Proof. by destruct a. Qed.

Lemma action_of_string_some s a : action_of_string s = Some a -> action_string a = s.
Proof.
  unfold action_of_string. intros H. apply List.find_some in H as [_ H].
  by apply String.eqb_eq in H.
Qed.

Lemma supported_stored_iff s :
  SUPPORTED_ACTION_SET_has_stored s = true <-> is_Some (action_of_string (StoredRule.action s)).
Proof.
  unfold SUPPORTED_ACTION_SET_has_stored. rewrite bool_decide_eq_true, list_elem_of_fmap.
  split.
  - intros (a & -> & _). rewrite action_of_string_action_string. by eexists.
  - intros [a Ha]. exists a. split; [by rewrite (action_of_string_some _ _ Ha)|].
    by destruct a; repeat constructor.
Qed.

Lemma rule_of_stored_of_rule r : rule_of_stored (stored_of_rule r) = Some r.
Proof.
  unfold rule_of_stored, stored_of_rule. simpl.
  rewrite action_of_string_action_string. by destruct r.
Qed.

Lemma stored_of_rule_of_stored s r : rule_of_stored s = Some r -> stored_of_rule r = s.
Proof.
  unfold rule_of_stored. destruct (action_of_string (StoredRule.action s)) as [a|] eqn:Ha;
    [|done].
  intros [= <-]. unfold stored_of_rule. simpl.
  rewrite (action_of_string_some _ _ Ha). by destruct s.
Qed.

(** X18: Loading prunes stale actions and nothing else: the rules set are, in
    stored order, exactly the stored entries whose action is one of the
    seven supported ones; entries with any other action are dropped; and a
    store that cannot be read or parsed, like an empty one, gives no rules.
    In every case the hook ends up loaded. *)
Theorem loadRules_prunes_unsupported_actions stored :
  (loadRules stored).2 = true /\
  match stored with
  | Returned (Some parsed) =>
      map stored_of_rule (loadRules stored).1
      = List.filter SUPPORTED_ACTION_SET_has_stored parsed
  | _ => (loadRules stored).1 = []
  end.
Proof.
  split; [by destruct stored as [[?|]|]|].
  destruct stored as [[parsed|]|]; [|done..]. simpl.
  induction parsed as [|s parsed IH]; simpl; [done|].
  destruct (SUPPORTED_ACTION_SET_has_stored s) eqn:Hs; [|exact IH].
  simpl. apply supported_stored_iff in Hs as [a Ha].
  destruct (rule_of_stored s) as [r|] eqn:Hr.
  - simpl. f_equal; [exact (stored_of_rule_of_stored _ _ Hr)|exact IH].
  - unfold rule_of_stored in Hr. by rewrite Ha in Hr.
Qed.

Example loadRules_drops_stale_rule :
  loadRules (Returned (Some [Fixture.stale_rule; stored_of_rule (Sample.pause_all true)]))
  = ([Sample.pause_all true], true).
Proof. reflexivity. Qed.

(** X19: What the store saved is what loading gives back: the rule list written
    by [JSON.stringify] is read back whole and in order. *)
Theorem loadRules_reads_back_saved_rules rules :
  loadRules (Returned (Some (map stored_of_rule rules))) = (rules, true).
Proof.
  unfold loadRules. f_equal.
  induction rules as [|r rules IH]; simpl; [done|].
  replace (SUPPORTED_ACTION_SET_has_stored (stored_of_rule r)) with true.
  - simpl. rewrite rule_of_stored_of_rule. f_equal. exact IH.
  - symmetry. apply supported_stored_iff. simpl.
    rewrite action_of_string_action_string. by eexists.
Qed.

(* ===================================================================== *)
(** * Further properties: the rule builder's condition list *)
(* ===================================================================== *)

Lemma filter_other_index_past i idx l :
  (i + length l <= idx)%nat -> filter_other_index i idx l = l.
Proof.
  revert i. induction l as [|c l IH]; intros i; simpl; [done|].
  intros H. destruct (Nat.eqb i idx) eqn:E; [apply Nat.eqb_eq in E; lia|].
  f_equal. apply IH. lia.
Qed.

Lemma filter_other_index_last i c l :
  filter_other_index i (i + length l) (l ++ [c]) = l.
Proof.
  revert i. induction l as [|x l IH]; intros i; simpl.
  - rewrite Nat.add_0_r, Nat.eqb_refl. done.
  - destruct (Nat.eqb i (i + S (length l))) eqn:E; [apply Nat.eqb_eq in E; lia|].
    f_equal. replace (i + S (length l))%nat with (S i + length l)%nat by lia. apply IH.
Qed.

(** X20: The condition the builder adds is a blank one: it does not change what
    the rule matches until a value is typed, and removing it again (or
    removing at an index past the end) gives back the list as it was. *)
Theorem addCondition_is_neutral conditions :
  (forall at_ms rule target,
     matchesRule at_ms (set_conditions (addCondition conditions) rule) target
     = matchesRule at_ms (set_conditions conditions rule) target) /\
  removeCondition (length conditions) (addCondition conditions) = conditions /\
  (forall idx, (length conditions <= idx)%nat -> removeCondition idx conditions = conditions).
Proof.
  split; [|split].
  - intros at_ms rule target. unfold addCondition, matchesRule. simpl.
    rewrite forallb_app. simpl. by rewrite !andb_true_r.
  - apply (filter_other_index_last 0).
  - intros idx H. by apply filter_other_index_past.
Qed.

Lemma addCondition_is_neutral_witness :
  removeCondition 5 [cond f_status equals "paused"] = [cond f_status equals "paused"].
Proof.
  apply (proj2 (proj2 (addCondition_is_neutral [cond f_status equals "paused"])) 5%nat).
  simpl. lia.
Defined.

(** X21: The conditions of a rule are a conjunction: their order does not
    matter, and a rule with more conditions never matches a target that the
    rule with fewer did not match. *)
Theorem matchesRule_conditions_are_conjoined at_ms rule target conditions :
  (forall conditions', conditions ≡ₚ conditions' ->
     matchesRule at_ms (set_conditions conditions' rule) target
     = matchesRule at_ms (set_conditions conditions rule) target) /\
  (forall more,
     matchesRule at_ms (set_conditions (conditions ++ more) rule) target
     = matchesRule at_ms (set_conditions conditions rule) target
       && matchesRule at_ms (set_conditions more rule) target).
Proof.
  split.
  - intros conditions' Hp.
    assert (H : forallb (condition_holds at_ms target) conditions'
                = forallb (condition_holds at_ms target) conditions).
    { induction Hp; simpl; [done|by rewrite IHHp| |congruence].
      destruct (condition_holds at_ms target x), (condition_holds at_ms target y); done. }
    unfold matchesRule. simpl. by rewrite H.
  - intros more. unfold matchesRule. simpl. rewrite forallb_app.
    destruct (Rule.scope rule) as [sc|]; [|done].
    destruct (negb _ && negb _); [done|done].
Qed.

Lemma matchesRule_conditions_are_conjoined_witness :
  let c1 := cond f_status equals "completed" in
  let c2 := cond f_progress greater_than "0.5" in
  matchesRule 1700000600000 (set_conditions [c2; c1] Sample.scenario_A_rule) Sample.done_item
  = matchesRule 1700000600000 (set_conditions [c1; c2] Sample.scenario_A_rule) Sample.done_item.
Proof.
  intros c1 c2.
  apply (proj1 (matchesRule_conditions_are_conjoined 1700000600000 Sample.scenario_A_rule
                  Sample.done_item [c1; c2])).
  apply perm_swap.
Defined.

(* ===================================================================== *)
(** * Further properties: presets by category *)
(* ===================================================================== *)

Lemma presetsByCategory_fold presets : forall (m : gmap string (list Preset.t)) cat,
  fold_left
    (fun m p => <[Preset.category p := default [] (m !! Preset.category p) ++ [p]]> m)
    presets m !! cat
  = match List.filter (fun p => String.eqb (Preset.category p) cat) presets with
    | [] => m !! cat
    | l => Some (default [] (m !! cat) ++ l)
    end.
Proof.
  induction presets as [|p ps IH]; intros m cat; simpl; [done|].
  rewrite IH. destruct (String.eqb (Preset.category p) cat) eqn:E.
  - apply String.eqb_eq in E. subst cat. rewrite lookup_insert_eq. simpl.
    destruct (List.filter _ ps); simpl; [done|]. by rewrite <- app_assoc.
  - apply String.eqb_neq in E. by rewrite lookup_insert_ne.
Qed.

(** X22: Grouping presets by category loses and reorders nothing: under each
    category the map holds exactly the presets of that category, in table
    order, and a category without presets has no entry. *)
Theorem presetsByCategory_groups_in_order presets cat :
  presetsByCategory_of presets !! cat
  = match List.filter (fun p => String.eqb (Preset.category p) cat) presets with
    | [] => None
    | l => Some l
    end.
Proof.
  unfold presetsByCategory_of. rewrite presetsByCategory_fold.
  rewrite lookup_empty. done.
Qed.

(* ===================================================================== *)
(** * Further properties: the link cache *)
(* ===================================================================== *)

Lemma getDownloadLink_miss now arrived answer source sourceId fileId options api :
  known_source source ->
  fresh_link now api (downloadCacheKey source sourceId fileId options) = None ->
  exists req,
    getDownloadLink_cached now arrived answer source sourceId fileId options api
    = request_and_cache arrived answer (downloadCacheKey source sourceId fileId options)
        req api.
Proof.
  intros Hs Hm. unfold getDownloadLink_cached. rewrite Hm.
  destruct Hs as [-> | [-> | ->]]; simpl; eauto.
Qed.

Lemma fresh_link_after_insert now t u key (m : gmap string CachedLink) reqs :
  fresh_link now {| linkCache := <[key := {| url := u; cachedAt := t |}]> m;
                    requested := reqs |} key
  = if now - t <? LINK_CACHE_TTL_MS then Some u else None.
Proof. unfold fresh_link. simpl. by rewrite lookup_insert_eq. Qed.

(** X23: A download link is asked of the server once and then served from the
    cache for three hours: after a call that had to ask and got [u] at time
    [t0], a call with the same arguments less than the TTL after [t0] returns
    [u] without any request, whatever the server would answer; from the TTL
    on, the server is asked again and its new answer is returned. *)
Theorem getDownloadLink_caches_for_ttl called t0 t1 t2 u answer source sourceId fileId
    options api :
  known_source source ->
  fresh_link called api (downloadCacheKey source sourceId fileId options) = None ->
  let first := getDownloadLink_cached called t0 (Returned u) source sourceId fileId
                 options api in
  let second := getDownloadLink_cached t1 t2 answer source sourceId fileId options first.1 in
  first.2 = Returned u /\
  length (requested first.1) = S (length (requested api)) /\
  (t1 - t0 < LINK_CACHE_TTL_MS -> second = (first.1, Returned u)) /\
  (LINK_CACHE_TTL_MS <= t1 - t0 ->
   second.2 = answer /\ length (requested second.1) = S (S (length (requested api)))).
Proof.
  intros Hs Hm first second.
  destruct (getDownloadLink_miss called t0 (Returned u) source sourceId fileId options api
              Hs Hm) as (req & Hfirst).
  subst second. subst first. rewrite Hfirst. simpl.
  split; [done|]. split; [rewrite length_app; simpl; lia|].
  split.
  - intros Hlt. unfold getDownloadLink_cached.
    rewrite fresh_link_after_insert.
    destruct (t1 - t0 <? LINK_CACHE_TTL_MS) eqn:E; [done|lia].
  - intros Hge.
    edestruct (getDownloadLink_miss t1 t2 answer source sourceId fileId options)
      as (req' & ->); [done| |].
    + rewrite fresh_link_after_insert.
      destruct (t1 - t0 <? LINK_CACHE_TTL_MS) eqn:E; [lia|done].
    + unfold request_and_cache. destruct answer; simpl;
        (split; [done|]); rewrite !length_app; simpl; lia.
Qed.

Lemma getDownloadLink_caches_for_ttl_witness :
  let first := getDownloadLink_cached 1700000000000 1700000000400
                 (Returned "https://cdn.example/a")
                 "torrent" (Finite 1) (Finite 7) None Fixture.empty_api in
  getDownloadLink_cached 1700003600000 1700003600400 (Threw (ErrorObject "offline"))
    "torrent" (Finite 1) (Finite 7) None first.1
  = (first.1, Returned "https://cdn.example/a").
Proof.
  intros first.
  destruct (getDownloadLink_caches_for_ttl 1700000000000 1700000000400 1700003600000
              1700003600400 "https://cdn.example/a" (Threw (ErrorObject "offline"))
              "torrent" (Finite 1) (Finite 7) None Fixture.empty_api)
    as (_ & _ & H & _).
  - by left.
  - reflexivity.
  - apply H. vm_compute. reflexivity.
Defined.

(** X24: A failed request caches nothing: the error is passed on and the cache
    is as before, so the next call asks again.  An unknown source is
    refused without asking the server. *)
Theorem getDownloadLink_failure_caches_nothing now arrived e source sourceId fileId
    options api :
  fresh_link now api (downloadCacheKey source sourceId fileId options) = None ->
  let r := getDownloadLink_cached now arrived (Threw e) source sourceId fileId options api in
  linkCache r.1 = linkCache api /\
  (known_source source ->
   r.2 = Threw e /\ length (requested r.1) = S (length (requested api))) /\
  (~ known_source source ->
   r = (api, Threw (ErrorObject ("Unknown source: " +:+ source)))).
Proof.
  intros Hm r. subst r. split; [|split].
  - unfold getDownloadLink_cached. rewrite Hm.
    repeat (destruct (String.eqb source _)); done.
  - intros Hs.
    destruct (getDownloadLink_miss now arrived (Threw e) source sourceId fileId options api
                Hs Hm) as (req & ->).
    simpl. split; [done|]. rewrite length_app. simpl. lia.
  - intros Hs. unfold getDownloadLink_cached. rewrite Hm.
    destruct (String.eqb source "torrent") eqn:E1;
      [apply String.eqb_eq in E1; exfalso; apply Hs; by left|].
    destruct (String.eqb source "usenet") eqn:E2;
      [apply String.eqb_eq in E2; exfalso; apply Hs; right; by left|].
    destruct (String.eqb source "web") eqn:E3;
      [apply String.eqb_eq in E3; exfalso; apply Hs; right; by right|].
    done.
Qed.

Lemma getDownloadLink_failure_caches_nothing_witness :
  getDownloadLink_cached 1700000000000 1700000000400 (Threw (ErrorObject "offline"))
    "ftp" (Finite 1) (Finite 7) None Fixture.empty_api
  = (Fixture.empty_api, Threw (ErrorObject "Unknown source: ftp")).
Proof.
  destruct (getDownloadLink_failure_caches_nothing 1700000000000 1700000000400
              (ErrorObject "offline") "ftp" (Finite 1) (Finite 7) None Fixture.empty_api
              eq_refl)
    as (_ & _ & H).
  apply H. intros [H1 | [H1 | H1]]; discriminate H1.
Defined.

(** X25: Invalidating a link drops that one entry: the next call with the same
    arguments and options asks the server again, every other entry is kept,
    and the requests made so far are not touched.  Clearing drops all. *)
Theorem invalidateLinkCache_forces_a_request now arrived answer source sourceId fileId
    options api :
  let api' := invalidateLinkCache source sourceId fileId options api in
  let next := getDownloadLink_cached now arrived answer source sourceId fileId options api' in
  fresh_link now api' (downloadCacheKey source sourceId fileId options) = None /\
  (forall key, key <> downloadCacheKey source sourceId fileId options ->
     linkCache api' !! key = linkCache api !! key) /\
  requested api' = requested api /\
  (known_source source ->
   next.2 = answer /\ length (requested next.1) = S (length (requested api))) /\
  (forall key, fresh_link now (clearLinkCache api) key = None).
Proof.
  intros api' next. subst next. subst api'.
  assert (Hm : fresh_link now (invalidateLinkCache source sourceId fileId options api)
                 (downloadCacheKey source sourceId fileId options) = None).
  { unfold fresh_link, invalidateLinkCache. simpl. by rewrite lookup_delete_eq. }
  split; [exact Hm|]. split; [|split; [done|split]].
  - intros key Hne. unfold invalidateLinkCache. simpl. by rewrite lookup_delete_ne.
  - intros Hs.
    destruct (getDownloadLink_miss now arrived answer source sourceId fileId options _ Hs Hm)
      as (req & ->).
    unfold request_and_cache. destruct answer; simpl;
      (split; [done|]); rewrite length_app; simpl; lia.
  - intros key. unfold fresh_link, clearLinkCache. simpl. by rewrite lookup_empty.
Qed.

Lemma invalidateLinkCache_forces_a_request_witness :
  let first := getDownloadLink_cached 1700000000000 1700000000400
                 (Returned "https://cdn.example/a")
                 "web" (Finite 3) (Finite 1) None Fixture.empty_api in
  (getDownloadLink_cached 1700000001000 1700000001400 (Returned "https://cdn.example/b")
     "web" (Finite 3) (Finite 1) None
     (invalidateLinkCache "web" (Finite 3) (Finite 1) None first.1)).2
  = Returned "https://cdn.example/b".
Proof.
  intros first.
  destruct (invalidateLinkCache_forces_a_request 1700000001000 1700000001400
              (Returned "https://cdn.example/b") "web" (Finite 3) (Finite 1) None first.1)
    as (_ & _ & _ & H & _).
  apply H. right. by right.
Defined.

Lemma download_key_is_no_stream_key source sourceId fileId options source' sourceId' fileId' :
  known_source source ->
  downloadCacheKey source sourceId fileId options <> streamCacheKey source' sourceId' fileId'.
Proof.
  intros [-> | [-> | ->]]; unfold downloadCacheKey, streamCacheKey; simpl; discriminate.
Qed.

(** X26: Stream links and download links are cached apart: asking for a stream
    link, whatever its arguments and outcome, never changes the cache entry
    of a download link. *)
Theorem getStreamLink_keeps_download_entries now arrived answer source sourceId fileId
    options source' sourceId' fileId' api :
  known_source source ->
  linkCache (getStreamLink_cached now arrived answer source' sourceId' fileId' api).1
    !! downloadCacheKey source sourceId fileId options
  = linkCache api !! downloadCacheKey source sourceId fileId options.
Proof.
  intros Hs.
  pose proof (download_key_is_no_stream_key source sourceId fileId options
                source' sourceId' fileId' Hs) as Hne.
  unfold getStreamLink_cached.
  destruct (fresh_link now api _); [done|].
  unfold request_and_cache.
  repeat (destruct (String.eqb source' _); [destruct answer; simpl;
            [by rewrite lookup_insert_ne|done]|]).
  done.
Qed.

Lemma getStreamLink_keeps_download_entries_witness :
  let first := getDownloadLink_cached 1700000000000 1700000000400
                 (Returned "https://cdn.example/a")
                 "torrent" (Finite 1) (Finite 7) None Fixture.empty_api in
  linkCache (getStreamLink_cached 1700000001000 1700000001400
               (Returned "https://cdn.example/s")
               "torrent" (Finite 1) (Finite 7) first.1).1
    !! downloadCacheKey "torrent" (Finite 1) (Finite 7) None
  = linkCache first.1 !! downloadCacheKey "torrent" (Finite 1) (Finite 7) None.
Proof.
  intros first.
  apply (getStreamLink_keeps_download_entries 1700000001000 1700000001400
           (Returned "https://cdn.example/s") "torrent" (Finite 1) (Finite 7) None
           "torrent" (Finite 1) (Finite 7) first.1).
  by left.
Defined.

(* ===================================================================== *)
(** * Further properties: memory and storage *)
(* ===================================================================== *)

Lemma persistRules_step env rs w : persisted_step env w (persistRules env rs w).1.
Proof. right. unfold persistRules. by destruct (rules_write_ok env). Qed.

Lemma persisted_step_same env w w' :
  w_rules w' = w_rules w -> w_saved w' = w_saved w -> persisted_step env w w'.
Proof. intros. by left. Qed.

Lemma store_operations_step env rules w :
  (forall presetId, persisted_step env w (addRuleFromPreset env rules presetId w).1) /\
  (forall params, persisted_step env w (createCustomRule env rules params w).1) /\
  (forall ruleId updates, persisted_step env w (updateRule env rules ruleId updates w).1) /\
  (forall ruleId enabled, persisted_step env w (toggleRule env rules ruleId enabled w).1) /\
  (forall ruleId, persisted_step env w (deleteRule env rules ruleId w).1) /\
  (forall ruleId trigger allowDisabled,
     persisted_step env w (runRule env rules ruleId trigger allowDisabled w)).
Proof.
  assert (Hp : forall rs v, w_rules v = w_rules w -> w_saved v = w_saved w ->
                 persisted_step env w (persistRules env rs v).1).
  { intros rs v _ Hs. right. unfold persistRules.
    destruct (rules_write_ok env); simpl; [done|exact Hs]. }
  repeat split.
  - intros presetId. unfold addRuleFromPreset.
    destruct (List.find _ TORBOX_RULE_PRESETS) as [p|]; [|by left].
    unfold bind, emit, ret. case_bool_decide; [destruct (confirm env)|]; simpl.
    + right. by destruct (rules_write_ok env).
    + by left.
    + right. by destruct (rules_write_ok env).
  - intros params. unfold createCustomRule, bind, ret, throw.
    destruct (negb (SUPPORTED_ACTION_SET_has _)); [by left|].
    destruct (negb (isActionSupportedForScope _ _)); [by left|]. simpl.
    right. by destruct (rules_write_ok env).
  - intros ruleId updates. unfold updateRule.
    destruct (find_rule rules ruleId); [|by left].
    destruct (negb (isActionSupportedForScope _ _)); [by left|by apply Hp].
  - intros ruleId enabled. unfold toggleRule.
    destruct (find_rule rules ruleId) as [rule|]; [|by left].
    destruct (enabled && negb _); [by left|].
    destruct (enabled && bool_decide _); [|by apply Hp].
    unfold bind, emit, when. destruct (confirm env); [by apply Hp|by left].
  - intros ruleId. unfold deleteRule. by apply Hp.
  - intros ruleId trigger allowDisabled. unfold runRule.
    destruct (runRule_start env rules ruleId trigger allowDisabled w) as [w1 [run|]] eqn:E.
    + apply runRule_start_acquired in E as (-> & _).
      destruct (runRule_finish env rules run _) as [w2 o] eqn:E2. simpl. revert E2.
      unfold runRule_finish, finally, try_catch, runRule_try, runRule_catch,
        bind, emit, when, ret.
      cbv beta.
      destruct (snapshot env) as [items|e].
      * destruct (executeAction env (run_rule run) _ _) as [w3 [summary|e]] eqn:Ex;
          apply executeAction_effect in Ex as (Hr & Hs & _);
          destruct (is_manual (run_trigger run));
          unfold persistRules; destruct (rules_write_ok env) eqn:Hok;
          intros [= <- _]; right; rewrite Hok; simpl; try done; exact Hs.
      * destruct (is_manual (run_trigger run));
          unfold persistRules; destruct (rules_write_ok env) eqn:Hok;
          intros [= <- _]; right; rewrite Hok; simpl; done.
    + revert E. unfold runRule_start.
      case_bool_decide; [intros [= <-]; by left|].
      destruct (find_rule rules ruleId) as [rule|]; [|intros [= <-]; by left].
      destruct (negb (Rule.enabled rule) && negb allowDisabled); [intros [= <-]; by left|].
      destruct (negb (isActionSupportedForScope _ _)); [|done].
      intros [= <-]. by apply Hp.
Qed.

(** X10: The saved copy follows the rule list.  While the storage accepts
    writes, a store whose saved copy equals its rule list stays so through
    adding, creating, updating, toggling, deleting and running a rule.  When
    the storage refuses writes, those operations never change the saved copy:
    the rule list in memory moves on alone, nothing is rolled back. *)
Theorem saved_copy_follows_rule_list env rules w w' :
  (exists presetId, w' = (addRuleFromPreset env rules presetId w).1) \/
  (exists params, w' = (createCustomRule env rules params w).1) \/
  (exists ruleId updates, w' = (updateRule env rules ruleId updates w).1) \/
  (exists ruleId enabled, w' = (toggleRule env rules ruleId enabled w).1) \/
  (exists ruleId, w' = (deleteRule env rules ruleId w).1) \/
  (exists ruleId trigger allowDisabled,
     w' = runRule env rules ruleId trigger allowDisabled w) ->
  (rules_write_ok env = true -> w_saved w = w_rules w -> w_saved w' = w_rules w') /\
  (rules_write_ok env = false -> w_saved w' = w_saved w).
Proof.
  intros Hop.
  assert (Hstep : persisted_step env w w').
  { destruct (store_operations_step env rules w) as (H1 & H2 & H3 & H4 & H5 & H6).
    destruct Hop as [(? & ->) | [(? & ->) | [(? & ? & ->) | [(? & ? & ->)
                    | [(? & ->) | (? & ? & ? & ->)]]]]]; eauto. }
  destruct Hstep as [[Hr Hs] | Hs].
  - split; [intros _ Hsync; congruence|done].
  - split; intros Hok; rewrite Hok in Hs; [by intros _|done].
Qed.

Lemma saved_copy_follows_rule_list_witness :
  let env := Sample.surroundings (Returned []) Sample.api_ok in
  let rules := [Sample.pause_all true] in
  let w' := (deleteRule env rules "rule_p" (Sample.world rules)).1 in
  w_saved w' = w_rules w'.
Proof.
  intros env rules w'.
  destruct (saved_copy_follows_rule_list env rules (Sample.world rules) w') as [H _].
  - do 4 right. left. by exists "rule_p".
  - apply H; reflexivity.
Defined.

(* ===================================================================== *)
(** * Further properties: pause, resume and delete *)
(* ===================================================================== *)

Lemma applyAction_bulk env rule target w :
  (forall c, api env c = None) ->
  forall c, bulk_call (Rule.action rule) target = Some c ->
  applyAction env rule target w = (log (EvApi c) w, Returned true).
Proof.
  intros Hok c. unfold bulk_call, control_call, applyAction, when, is_source, bind, ret,
    api_call.
  destruct (Rule.action rule); try done; destruct (Target.source target); simpl;
    intros [= <-]; by rewrite ?Hok.
Qed.

Lemma bulk_call_defined action target :
  action = pause_download \/ action = resume_download \/ action = delete_download ->
  is_Some (bulk_call action target).
Proof. intros [-> | [-> | ->]]; by eexists. Qed.

Lemma forTargets_bulk env rule targets :
  Rule.action rule = pause_download \/ Rule.action rule = resume_download \/
  Rule.action rule = delete_download ->
  (forall c, api env c = None) ->
  forall n w, exists w',
    forTargets env rule targets n w = (w', Returned (n + length targets)%nat) /\
    w_trace w' = w_trace w ++ map EvApi (omap (bulk_call (Rule.action rule)) targets) /\
    length (omap (bulk_call (Rule.action rule)) targets) = length targets /\
    w_notifications w' = w_notifications w /\ w_rules w' = w_rules w.
Proof.
  intros Ha Hok. induction targets as [|t ts IH]; intros n w.
  - exists w. simpl. unfold ret. rewrite app_nil_r, Nat.add_0_r. done.
  - destruct (bulk_call_defined _ t Ha) as [c Hc].
    cbn [forTargets]. unfold bind. rewrite (applyAction_bulk env rule t w Hok c Hc).
    destruct (IH (S n) (log (EvApi c) w)) as (w' & -> & Ht & Hl & Hn & Hr).
    exists w'. split; [do 2 f_equal; simpl; lia|].
    change (omap (bulk_call (Rule.action rule)) (t :: ts))
      with (match bulk_call (Rule.action rule) t with
            | Some y => y :: omap (bulk_call (Rule.action rule)) ts
            | None => omap (bulk_call (Rule.action rule)) ts
            end).
    rewrite Hc. split; [|split; [simpl; by rewrite Hl|done]].
    rewrite Ht. simpl. by rewrite <- app_assoc.
Qed.

(** X15: With action 'pause_download', 'resume_download' or 'delete_download'
    and a remote API that accepts the calls, the calls made are, target by
    target and in order, the one call of that target: the pause or resume on
    the control endpoint of its own kind (torrent, usenet or web), or
    [deleteItem] with its source and id.  Every target is counted: the result
    is "Processed n item(s)." for the n targets, "No matching downloads
    found." for an empty batch, or the error of the summary notification
    when its write fails. *)
Theorem bulk_actions_reach_every_target env rule targets w :
  Rule.action rule = pause_download \/ Rule.action rule = resume_download \/
  Rule.action rule = delete_download ->
  (forall c, api env c = None) ->
  let n := length targets in
  let r := executeAction env rule targets w in
  w_trace r.1 = w_trace w ++ map EvApi (omap (bulk_call (Rule.action rule)) targets) /\
  length (omap (bulk_call (Rule.action rule)) targets) = n /\
  r.2 = match targets, notify_write env with
        | [], _ => Returned "No matching downloads found."
        | _ :: _, None =>
            Returned ("Processed " +:+ digits_of_Z (Z.of_nat n) +:+ " item"
                      +:+ plural n +:+ ".")
        | _ :: _, Some e => Threw e
        end.
Proof.
  intros Ha Hok n r. subst r.
  destruct targets as [|t ts].
  { simpl. by rewrite app_nil_r. }
  assert (Hn : Nat.ltb 0 n = true) by (apply Nat.ltb_lt; subst n; simpl; lia).
  destruct (executeAction env rule (t :: ts) w) as [w' o] eqn:E.
  rewrite executeAction_nonempty in E by done. revert E.
  unfold bind at 1.
  destruct (forTargets_bulk env rule (t :: ts) Ha Hok 0%nat w)
    as (w1 & -> & Ht & Hl & _).
  cbn [Nat.add]. fold n. rewrite Hn.
  unfold when, bind, appendAppNotification, ret.
  destruct (notify_write env); intros [= <- <-];
    (split; [by rewrite <- Ht|]); (split; [exact Hl|done]).
Qed.

Lemma bulk_actions_reach_every_target_witness :
  let env := Sample.surroundings (Returned []) Sample.api_ok in
  let r := executeAction env (Sample.rule "rule_s" resume_download None [] true)
             [Sample.done_item; Sample.partial_item] (Sample.world []) in
  r.2 = Returned "Processed 2 items." /\
  w_trace r.1
  = [EvApi (controlTorrent (Target.sourceId Sample.done_item) op_resume);
     EvApi (controlUsenet (Target.sourceId Sample.partial_item) op_resume)].
Proof.
  intros env r.
  destruct (bulk_actions_reach_every_target env
              (Sample.rule "rule_s" resume_download None [] true)
              [Sample.done_item; Sample.partial_item] (Sample.world []))
    as (Ht & _ & He); [right; by left|done|].
  split; [exact He|exact Ht].
Defined.
